(** * Retrieval core of the KCT chatbot: chunking, build pipeline, search

    Shallow embedding of [scripts/preprocess.py] and [scripts/query_bot.py].

    Conventions.
    - A Python [str] is a list of Unicode code points ([N]).
    - Python [int]s are [Z]; [len], indexing and slicing follow Python,
      negative indices included.
    - A Python exception is [Raise e]; a [while] loop that may not end is
      run with fuel, [None] meaning that the fuel ran out.
    - Floats are IEEE 754 binary numbers ([SpecFloat]): a Python [float]
      is a binary64 and a [numpy.float32] a binary32, and NumPy operates
      on a [float32] and a Python number in binary32 (the promotion rules
      of NumPy 2).  The floats of a JSON document, and the averages that
      the scripts only print, are kept as rationals.
    - Limits of the machine (memory, recursion depth) are not modelled. *)

From Stdlib Require Import String Ascii DecimalString.
From Stdlib Require Import List ZArith NArith QArith Lia Bool.
From Stdlib Require Import Permutation Sorted.
From Stdlib Require Import Floats.SpecFloat.
Import ListNotations.

Local Open Scope Z_scope.

(* ================================================================== *)
(** * Python values and primitives *)
(* ================================================================== *)

Module Py.

Definition char := N.
Definition str := list char.

(** A string literal of the source, as code points. *)
Definition lit (s : string) : str := map N_of_ascii (list_ascii_of_string s).

Inductive exn : Type :=
| AttributeError
| IndexError
| ExternalError.

Inductive outcome (A : Type) : Type :=
| Ok (a : A)
| Raise (e : exn).
Arguments Ok {A} a.
Arguments Raise {A} e.

Definition bind {A B} (m : outcome A) (f : A -> outcome B) : outcome B :=
  match m with
  | Ok a => f a
  | Raise e => Raise e
  end.

(** JSON values as [json.load] returns them.  A dict is listed by its
    items (keys distinct). *)
#[local] Unset Elimination Schemes.
Inductive pyval : Type :=
| PNone
| PBool (b : bool)
| PInt (n : Z)
| PFloat (q : Q)
| PStr (s : str)
| PList (l : list pyval)
| PDict (items : list (str * pyval)).
#[local] Set Elimination Schemes.

Definition str_eqb (a b : str) : bool :=
  if list_eq_dec N.eq_dec a b then true else false.

Fixpoint assoc (key : str) (items : list (str * pyval)) : option pyval :=
  match items with
  | [] => None
  | (k, v) :: rest => if str_eqb k key then Some v else assoc key rest
  end.

(** [entry.get(key, default)]: only a dict has [get]. *)
Definition get (entry : pyval) (key : str) (default : pyval) : outcome pyval :=
  match entry with
  | PDict items =>
      match assoc key items with
      | Some v => Ok v
      | None => Ok default
      end
  | _ => Raise AttributeError
  end.

Definition len {A} (l : list A) : Z := Z.of_nat (length l).

(** [l[i]]: negative [i] counts from the end; out of range raises. *)
Definition index {A} (l : list A) (i : Z) : option A :=
  if 0 <=? i then nth_error l (Z.to_nat i)
  else if - len l <=? i then nth_error l (Z.to_nat (i + len l))
  else None.

(** Slice bound adjustment of [l[a:b]]. *)
Definition adjust (n i : Z) : Z :=
  if i <? 0 then Z.max (i + n) 0 else Z.min i n.

Definition slice {A} (l : list A) (a b : Z) : list A :=
  let a' := adjust (len l) a in
  let b' := adjust (len l) b in
  firstn (Z.to_nat (b' - a')) (skipn (Z.to_nat a') l).

(** [str.isspace] on one code point; the regex class [\s] is the same. *)
Definition isspace (c : char) : bool :=
  ((9 <=? c) && (c <=? 13) || (28 <=? c) && (c <=? 32)
   || (c =? 133) || (c =? 160) || (c =? 5760)
   || (8192 <=? c) && (c <=? 8202)
   || (c =? 8232) || (c =? 8233) || (c =? 8239) || (c =? 8287)
   || (c =? 12288))%N.

Fixpoint lstrip (s : str) : str :=
  match s with
  | [] => []
  | c :: s' => if isspace c then lstrip s' else s
  end.

Definition rstrip (s : str) : str := rev (lstrip (rev s)).

Definition strip (s : str) : str := rstrip (lstrip s).

(** [re.sub(r'\s+', ' ', s)]: every maximal run of whitespace becomes one
    space; [in_run] tells that the previous character was whitespace. *)
Fixpoint sub_ws_runs (in_run : bool) (s : str) : str :=
  match s with
  | [] => []
  | c :: s' =>
      if isspace c then
        if in_run then sub_ws_runs true s' else 32%N :: sub_ws_runs true s'
      else c :: sub_ws_runs false s'
  end.

(** [re.sub(r'\s+', ' ', s.strip())] *)
Definition normalize_ws (s : str) : str := sub_ws_runs false (strip s).

(** ** Floats *)

(** The binary32 operations of NumPy, round to nearest even. *)
Definition f32_of_int (n : Z) : spec_float := binary_normalize 24 128 n 0 false.

Definition f32_add : spec_float -> spec_float -> spec_float := SFadd 24 128.

Definition f32_div : spec_float -> spec_float -> spec_float := SFdiv 24 128.

(** A binary64 rounded to binary32. *)
Definition f32_of_f64 (x : spec_float) : spec_float :=
  match x with
  | S754_finite s m e => binary_round 24 128 s m e
  | _ => x
  end.

(** The binary64 nearest to [p / q], the value of a literal such as
    [0.3]. *)
Definition f64_ratio (p q : Z) : spec_float :=
  SFdiv 53 1024 (binary_normalize 53 1024 p 0 false)
    (binary_normalize 53 1024 q 0 false).

(** A float object: a Python [float] or a [numpy.float32]. *)
Inductive number : Type :=
| Float (x : spec_float)
| Float32 (x : spec_float).

(** [a < b] and [a == b]: between a [float32] and a Python [float] NumPy
    rounds the [float] to binary32 first; a NaN compares false. *)
Definition float_lt (a b : number) : bool :=
  match a, b with
  | Float x, Float y => SFltb x y
  | Float32 x, Float32 y => SFltb x y
  | Float32 x, Float y => SFltb x (f32_of_f64 y)
  | Float x, Float32 y => SFltb (f32_of_f64 x) y
  end.

Definition float_eq (a b : number) : bool :=
  match a, b with
  | Float x, Float y => SFeqb x y
  | Float32 x, Float32 y => SFeqb x y
  | Float32 x, Float y => SFeqb x (f32_of_f64 y)
  | Float x, Float32 y => SFeqb (f32_of_f64 x) y
  end.

(** [a > b] *)
Definition float_gt (a b : number) : bool := float_lt b a.

Definition is_nan (x : spec_float) : bool :=
  match x with
  | S754_nan => true
  | _ => false
  end.

(** Ghost: a [float32] that is a number, not NaN. *)
Definition f32_number (a : number) : bool :=
  match a with
  | Float32 x => negb (is_nan x)
  | Float _ => false
  end.

(** Ghost: where a float stands in the order of [SFcompare]: its class
    (infinities, signed finite numbers, zero), then exponent, then
    mantissa. *)
Definition float_class (x : spec_float) : Z :=
  match x with
  | S754_infinity true => -2
  | S754_finite true _ _ => -1
  | S754_zero _ | S754_nan => 0
  | S754_finite false _ _ => 1
  | S754_infinity false => 2
  end.

Definition exponent (x : spec_float) : Z :=
  match x with
  | S754_finite false _ e => e
  | S754_finite true _ e => - e
  | _ => 0
  end.

Definition mantissa (x : spec_float) : Z :=
  match x with
  | S754_finite false m _ => Zpos m
  | S754_finite true m _ => Zneg m
  | _ => 0
  end.

Definition below (x y : spec_float) : Prop :=
  float_class x < float_class y
  \/ float_class x = float_class y
     /\ (exponent x < exponent y
         \/ exponent x = exponent y /\ mantissa x < mantissa y).

(** The loops that may not end: [None] is fuel exhausted. *)
Definition run (A : Type) : Type := option (outcome A).

Definition rbind {A B} (m : run A) (f : A -> run B) : run B :=
  match m with
  | None => None
  | Some (Raise e) => Some (Raise e)
  | Some (Ok a) => f a
  end.

(** A statement that cannot loop, inside code that can. *)
Definition once {A} (o : outcome A) : run A := Some o.

Definition done {A} (a : A) : run A := Some (Ok a).

End Py.

Notation "x <~ m ;; k" := (Py.rbind m (fun x => k))
  (at level 61, m at next level, right associativity, only parsing).

(* ================================================================== *)
(** * scripts/preprocess.py *)
(* ================================================================== *)

Module Preprocess.
Import Py.

(** [content[i] in '.!?'] *)
Definition is_terminal (c : char) : bool :=
  ((c =? 46) || (c =? 33) || (c =? 63))%N.

(** The [for i in range(e, lo, -1)] scan of [smart_chunking], [n] indices
    left to visit, [i] the next one.  Result: the new [end], or the
    proposed one [e0] when no index holds a sentence end. *)
Fixpoint scan (content : str) (e0 : Z) (i : Z) (n : nat) : outcome Z :=
  match n with
  | O => Ok e0
  | S n' =>
      match index content i with
      | None => Raise IndexError
      | Some c =>
          if is_terminal c then Ok (i + 1)
          else scan content e0 (i - 1) n'
      end
  end.

(** The value of [end] when the chunk is sliced, for a given [start]. *)
Definition cut_point (content : str) (chunk_size start : Z) : outcome Z :=
  let e := start + chunk_size in
  if e <? len content then
    let lo := Z.max (start + chunk_size - 150) start in
    scan content e e (Z.to_nat (e - lo))
  else Ok e.

(** [chunks.append(chunk)] under [if chunk and len(chunk) > 100]. *)
Definition keep (chunks : list str) (chunk : str) : list str :=
  match chunk with
  | [] => chunks
  | _ => if 100 <? len chunk then chunks ++ [chunk] else chunks
  end.

Fixpoint smart_chunking_loop (fuel : nat) (content : str)
  (chunk_size overlap : Z) (start : Z) (chunks : list str)
  : run (list str) :=
  match fuel with
  | O => None
  | S fuel' =>
      if start <? len content then
        match cut_point content chunk_size start with
        | Raise e => Some (Raise e)
        | Ok e =>
            let chunk := strip (slice content start e) in
            let chunks' := keep chunks chunk in
            let start' := e - overlap in
            if len content <=? start' then Some (Ok chunks')
            else smart_chunking_loop fuel' content chunk_size overlap
                   start' chunks'
        end
      else Some (Ok chunks)
  end.

Definition smart_chunking (fuel : nat) (content : str)
  (chunk_size overlap : Z) : run (list str) :=
  smart_chunking_loop fuel content chunk_size overlap 0 [].

(** One metadata dict of [clean_and_chunk]. *)
Record chunk_meta : Type := {
  url : pyval;
  section : pyval;
  content_length : Z;
  original_content : str;
  source_entry : nat
}.

(** [content[:150] + "..." if len(content) > 150 else content] *)
Definition preview (content : str) : str :=
  if 150 <? len content then slice content 0 150 ++ lit "..." else content.

Section CleanText.

(** [str.isalnum] of the runtime on one code point (the Unicode tables
    are not part of the repository); the regex class [\w] is this or
    the underscore. *)
Variable isalnum : char -> bool.

Definition is_word (c : char) : bool := isalnum c || (c =? 95)%N.

(** The allow-list [\w\s\.\,\!\?\-\:\;\(\)]. *)
Definition allowed (c : char) : bool :=
  is_word c || isspace c
  || existsb (N.eqb c) [46; 44; 33; 63; 45; 58; 59; 40; 41]%N.

Definition clean_text (text : str) : str :=
  let text := normalize_ws text in
  filter allowed text.

(** [clean_text] on a JSON value: only a [str] has [strip]. *)
Definition clean_text_val (v : pyval) : outcome str :=
  match v with
  | PStr text => Ok (clean_text text)
  | _ => Raise AttributeError
  end.

(** The inner [for chunk in content_chunks] loop: paired appends. *)
Definition append_chunks (url section : pyval) (content : str) (i : nat)
  (content_chunks : list str) (st : list str * list chunk_meta)
  : list str * list chunk_meta :=
  fold_left
    (fun '(chunks, metadata) chunk =>
       (chunks ++ [chunk],
        metadata ++ [ {| url := url;
                         section := section;
                         content_length := len chunk;
                         original_content := preview content;
                         source_entry := i |} ]))
    content_chunks st.

(** The body of the [try] for entry [i].  Every statement that can raise
    comes before the first append, so a raise leaves the two lists as
    they were. *)
Definition process_entry (fuel : nat) (chunk_size overlap : Z)
  (i : nat) (entry : pyval) (st : list str * list chunk_meta)
  : run (list str * list chunk_meta) :=
  content <~ once (bind (get entry (lit "content") (PStr []))
                     clean_text_val) ;;
  url <~ once (get entry (lit "url") (PStr (lit "https://kct.ac.in"))) ;;
  section <~ once (get entry (lit "section") (PStr (lit "General"))) ;;
  if len content <? 30 then done st
  else
    content_chunks <~ smart_chunking fuel content chunk_size overlap ;;
    done (append_chunks url section content i content_chunks st).

(** [for i, entry in enumerate(data)] with [except Exception: continue]. *)
Fixpoint clean_and_chunk_loop (fuel : nat) (chunk_size overlap : Z)
  (i : nat) (data : list pyval) (st : list str * list chunk_meta)
  : option (list str * list chunk_meta) :=
  match data with
  | [] => Some st
  | entry :: rest =>
      match process_entry fuel chunk_size overlap i entry st with
      | None => None
      | Some (Ok st') =>
          clean_and_chunk_loop fuel chunk_size overlap (S i) rest st'
      | Some (Raise _) =>
          clean_and_chunk_loop fuel chunk_size overlap (S i) rest st
      end
  end.

Definition clean_and_chunk (fuel : nat) (data : list pyval)
  (chunk_size overlap : Z) : option (list str * list chunk_meta) :=
  clean_and_chunk_loop fuel chunk_size overlap 0 data ([], []).

End CleanText.

(** ** Ghost definitions for the proofs *)

(** Metadata entry [m] was created for [chunk]: it records the length of
    [chunk], and the record at position [source_entry m] of [data] gives
    its [url] and [section] and, cleaned and chunked, gives [chunk]. *)
Definition made_for (isalnum : char -> bool) (fuel : nat)
  (data : list pyval) (chunk_size overlap : Z)
  (chunk : str) (m : chunk_meta) : Prop :=
  content_length m = len chunk
  /\ exists entry content content_chunks,
      nth_error data (source_entry m) = Some entry
      /\ bind (get entry (lit "content") (PStr [])) (clean_text_val isalnum)
         = Ok content
      /\ get entry (lit "url") (PStr (lit "https://kct.ac.in")) = Ok (url m)
      /\ get entry (lit "section") (PStr (lit "General")) = Ok (section m)
      /\ original_content m = preview content
      /\ smart_chunking fuel content chunk_size overlap
         = Some (Ok content_chunks)
      /\ In chunk content_chunks.

(** The text of the window [content[s:e].strip()]. *)
Definition window_text (content : str) (w : Z * Z) : str :=
  strip (slice content (fst w) (snd w)).

(** The [(start, end)] pair of every iteration of the loop of
    [smart_chunking], in order. *)
Fixpoint windows_loop (fuel : nat) (content : str)
  (chunk_size overlap : Z) (start : Z) : run (list (Z * Z)) :=
  match fuel with
  | O => None
  | S fuel' =>
      if start <? len content then
        match cut_point content chunk_size start with
        | Raise e => Some (Raise e)
        | Ok e =>
            if len content <=? e - overlap then Some (Ok [(start, e)])
            else
              ws <~ windows_loop fuel' content chunk_size overlap
                      (e - overlap) ;;
              done ((start, e) :: ws)
        end
      else Some (Ok [])
  end.

Definition windows (fuel : nat) (content : str) (chunk_size overlap : Z)
  : run (list (Z * Z)) :=
  windows_loop fuel content chunk_size overlap 0.

(** A text that passes the length test of the loop. *)
Definition long (c : str) : Prop := 100 < len c.

(** What the loop appends for a list of windows. *)
Definition emitted (content : str) (ws : list (Z * Z)) : list str :=
  fold_left keep (map (window_text content) ws) [].

(** Each window starts where the loop set [start]: the first at [start],
    the next at the previous [end - overlap]; each ends at its cut. *)
Fixpoint chained (content : str) (chunk_size overlap : Z) (start : Z)
  (ws : list (Z * Z)) : Prop :=
  match ws with
  | [] => True
  | (s, e) :: ws' =>
      s = start /\ cut_point content chunk_size s = Ok e
      /\ chained content chunk_size overlap (e - overlap) ws'
  end.

(** Parameters for which every iteration moves [start] forward. *)
Definition advancing (chunk_size overlap : Z) : Prop :=
  0 <= overlap < chunk_size /\ overlap <= Z.max (chunk_size - 150) 0 + 1.

(** Two texts overlap by exactly [n] characters: the last [n] of the
    first are the first [n] of the second. *)
Definition overlap_exactly (n : Z) (c1 c2 : str) : Prop :=
  0 <= n <= len c1 /\ n <= len c2
  /\ slice c1 (len c1 - n) (len c1) = slice c2 0 n.

(** The cut as section 4.1 of the specification words it: scan backward
    from the proposed end over up to [chunk_size - overlap] characters. *)
Definition spec_cut_point (content : str) (chunk_size overlap start : Z)
  : outcome Z :=
  let e := start + chunk_size in
  if e <? len content then
    scan content e e (Z.to_nat (chunk_size - overlap))
  else Ok e.

(** The invariant of the loop of [clean_and_chunk]: the two lists are
    aligned. *)
Definition aligned_with (isalnum : char -> bool) (fuel : nat)
  (data : list pyval) (chunk_size overlap : Z)
  (st : list str * list chunk_meta) : Prop :=
  Forall2 (made_for isalnum fuel data chunk_size overlap) (fst st) (snd st).

End Preprocess.

(* ================================================================== *)
(** * scripts/query_bot.py *)
(* ================================================================== *)

Module QueryBot.
Import Py.
Export Preprocess (chunk_meta, url, section, content_length,
                   original_content, source_entry).

(** One search result dict: [text], [relevance_score], [distance] and the
    keys of the chunk's metadata dict ([None] for the empty dict). *)
Record result : Type := {
  text : str;
  relevance_score : number;
  distance : number;
  meta : option chunk_meta
}.

(** [x["relevance_score"]], the sort key. *)
Definition key (x : result) : number := relevance_score x.

(** [list.sort(key = ..., reverse = True)]: stable, largest key first,
    the keys compared with [<] alone.  An element goes behind those with
    a larger key and in front of the others.  This is the order of
    [list.sort] when [<] orders the keys.  A NaN key compares false with
    every key and the order that Python then gives depends on the runs
    that its merge sort finds: what is proved of the order assumes that
    no key is NaN. *)
Fixpoint insert_desc (x : result) (l : list result) : list result :=
  match l with
  | [] => [x]
  | y :: l' =>
      if float_lt (key x) (key y) then y :: insert_desc x l'
      else x :: y :: l'
  end.

Fixpoint sort_desc (l : list result) : list result :=
  match l with
  | [] => []
  | x :: l' => insert_desc x (sort_desc l')
  end.

(** [results.sort(...); return results[:k]] *)
Definition rank (results : list result) (k : Z) : list result :=
  slice (sort_desc results) 0 k.

(** [b] may follow [a] in a ranked list: [a] is not smaller. *)
Definition ge_key (a b : result) : Prop := float_lt (key a) (key b) = false.


(** [1 / (1 + distance)] for a [float32] distance: both operations in
    binary32. *)
Definition score (distance : spec_float) : spec_float :=
  f32_div (f32_of_int 1) (f32_add (f32_of_int 1) distance).


(** Ghost: the key of a result is a [float32] and not NaN. *)
Definition numeric (x : result) : Prop := f32_number (key x) = true.

Fixpoint is_prefix (p s : str) : bool :=
  match p, s with
  | [], _ => true
  | _ :: _, [] => false
  | a :: p', b :: s' => (a =? b)%N && is_prefix p' s'
  end.

(** [sub in s] on strings. *)
Fixpoint contains (s sub : str) : bool :=
  is_prefix sub s
  || match s with
     | [] => false
     | _ :: s' => contains s' sub
     end.

Definition kct_keywords : list str :=
  [lit "KCT"; lit "Kumaraguru"; lit "College"; lit "Technology"].

Definition anchor : str := lit "Kumaraguru College of Technology ".

(** Ghost: the lowered query [q] contains a lowered keyword. *)
Definition has_keyword (lower : str -> str) (q : str) : Prop :=
  exists keyword pre post,
    In keyword kct_keywords /\ lower q = pre ++ lower keyword ++ post.

Section Runtime.

(** The collaborators: the embedding model, the vector index, the files
    under [vectorstore/], and [str.lower] of the runtime.  The index
    answers with [(distance, ordinal)] pairs, the distances [float32]. *)
Variables Model Index Vec : Type.
Variable load_model : outcome Model.
Variable encode : Model -> list str -> outcome Vec.
Variable index_search : Index -> Vec -> Z -> outcome (list (spec_float * Z)).
Variable lower : str -> str.

(** A file is absent ([None]) or its reading gives a value or raises. *)
Record files : Type := {
  index_file : option (outcome Index);
  metadata_file : option (outcome (list chunk_meta));
  chunks_file : option (outcome (list str))
}.

Variable fs : files.

(** The module globals. *)
Record globals : Type := {
  model : option Model;
  index : option Index;
  metadata : list chunk_meta;
  chunks : list str
}.

Definition initial : globals :=
  {| model := None; index := None; metadata := []; chunks := [] |}.

(** State and exception monad over the globals. *)
Definition M (A : Type) : Type := globals -> globals * outcome A.

Definition ret {A} (a : A) : M A := fun g => (g, Ok a).

Definition call {A} (o : outcome A) : M A := fun g => (g, o).

Definition mbind {A B} (m : M A) (f : A -> M B) : M B :=
  fun g =>
    match m g with
    | (g', Ok a) => f a g'
    | (g', Raise e) => (g', Raise e)
    end.

Definition try_catch {A} (body : M A) (handler : exn -> M A) : M A :=
  fun g =>
    match body g with
    | (g', Ok a) => (g', Ok a)
    | (g', Raise e) => handler e g'
    end.

Definition read : M globals := fun g => (g, Ok g).

Definition modify (f : globals -> globals) : M unit :=
  fun g => (f g, Ok tt).

Notation "x <- m ;; k" := (mbind m (fun x => k))
  (at level 61, m at next level, right associativity).
Notation "m ;;; k" := (mbind m (fun _ => k))
  (at level 61, right associativity).

Definition set_model (m : Model) : M unit :=
  modify (fun g => {| model := Some m; index := index g;
                      metadata := metadata g; chunks := chunks g |}).

Definition set_index (ix : Index) : M unit :=
  modify (fun g => {| model := model g; index := Some ix;
                      metadata := metadata g; chunks := chunks g |}).

Definition set_metadata (md : list chunk_meta) : M unit :=
  modify (fun g => {| model := model g; index := index g;
                      metadata := md; chunks := chunks g |}).

Definition set_chunks (cs : list str) : M unit :=
  modify (fun g => {| model := model g; index := index g;
                      metadata := metadata g; chunks := cs |}).

Definition initialize_system : M bool :=
  try_catch
    (m <- call load_model ;;
     set_model m ;;;
     match index_file fs with
     | Some reading =>
         ix <- call reading ;;
         set_index ix ;;;
         match metadata_file fs with
         | Some reading => md <- call reading ;; set_metadata md
         | None => ret tt
         end ;;;
         match chunks_file fs with
         | Some reading => cs <- call reading ;; set_chunks cs
         | None => ret tt
         end ;;;
         ret true
     | None => ret false
     end)
    (fun _ => ret false).

(** Lines 70 to 76: the text handed to [model.encode]. *)
Definition anchor_query (query : str) : str :=
  let query := normalize_ws query in
  let query_lower := lower query in
  if negb (existsb (fun keyword => contains query_lower (lower keyword))
             kct_keywords)
  then anchor ++ query
  else query.

(** [model.encode(...)] and [index.search(...)]: [None] has neither. *)
Definition model_encode (texts : list str) : M Vec :=
  g <- read ;;
  match model g with
  | Some m => call (encode m texts)
  | None => call (Raise AttributeError)
  end.

Definition index_search_k (v : Vec) (search_k : Z)
  : M (list (spec_float * Z)) :=
  g <- read ;;
  match index g with
  | Some ix => call (index_search ix v search_k)
  | None => call (Raise AttributeError)
  end.

Definition item {A} (l : list A) (i : Z) : outcome A :=
  match Py.index l i with
  | Some a => Ok a
  | None => Raise IndexError
  end.

(** The loop over [zip(D[0], I[0])]. *)
Fixpoint assemble (chunks : list str) (metadata : list chunk_meta)
  (hits : list (spec_float * Z)) (results : list result)
  : outcome (list result) :=
  match hits with
  | [] => Ok results
  | (distance, idx) :: hits' =>
      if (idx <? len chunks) && (idx <? len metadata) then
        bind (item chunks idx) (fun chunk_text =>
        bind (if idx <? len metadata
              then bind (item metadata idx) (fun m => Ok (Some m))
              else Ok None) (fun chunk_metadata =>
        let relevance_score :=
          f32_div (f32_of_int 1) (f32_add (f32_of_int 1) distance) in
        assemble chunks metadata hits'
          (results ++ [ {| text := chunk_text;
                           relevance_score := Float32 relevance_score;
                           distance := Float32 distance;
                           meta := chunk_metadata |} ])))
      else assemble chunks metadata hits' results
  end.

(** The body of the [try] up to the sort: encode, search, assemble. *)
Definition retrieve (query : str) (k : Z) : M (list result) :=
  let query := anchor_query query in
  query_embedding <- model_encode [query] ;;
  g <- read ;;
  let search_k := Z.min (k * 2) (len (chunks g)) in
  hits <- index_search_k query_embedding search_k ;;
  call (assemble (chunks g) (metadata g) hits []).

Definition is_none {A} (o : option A) : bool :=
  match o with
  | None => true
  | Some _ => false
  end.

Definition is_empty {A} (l : list A) : bool :=
  match l with
  | [] => true
  | _ :: _ => false
  end.

Definition enhanced_semantic_search (query : str) (k : Z) : M (list result) :=
  g <- read ;;
  (if is_none (model g) || is_none (index g)
   then initialize_system ;;; ret tt
   else ret tt) ;;;
  g <- read ;;
  if is_empty (chunks g) || is_empty (metadata g) then ret []
  else
    try_catch
      (results <- retrieve query k ;;
       ret (rank results k))
      (fun _ => ret []).

(** Ghost: the globals once line 63 has run. *)
Definition ready (g : globals) : globals :=
  if is_none (model g) || is_none (index g)
  then fst (initialize_system g)
  else g.

End Runtime.

Arguments index_file {Index} f.
Arguments metadata_file {Index} f.
Arguments chunks_file {Index} f.
Arguments Build_files {Index} index_file metadata_file chunks_file.
Arguments model {Model Index} g.
Arguments index {Model Index} g.
Arguments metadata {Model Index} g.
Arguments chunks {Model Index} g.
Arguments Build_globals {Model Index} model index metadata chunks.
Arguments initial {Model Index}.
Arguments ret {Model Index A} a _.
Arguments call {Model Index A} o _.
Arguments mbind {Model Index A B} m f _.
Arguments try_catch {Model Index A} body handler _.
Arguments read {Model Index} _.
Arguments initialize_system {Model Index} load_model fs _.
Arguments model_encode {Model Index Vec} encode texts _.
Arguments index_search_k {Model Index Vec} index_search v search_k _.
Arguments retrieve {Model Index Vec} encode index_search lower query k _.
Arguments enhanced_semantic_search {Model Index Vec} load_model encode
  index_search lower fs query k _.
Arguments ready {Model Index} load_model fs g.

(** ** [create_conversational_prompt] *)

(** [c.get("relevance_score", 0) > 0.3] *)
Definition relevant (c : result) : bool :=
  float_gt (relevance_score c) (Float (f64_ratio 3 10)).

(** [relevant_chunks] after the fallback of line 111. *)
Definition relevant_chunks (context_chunks : list result) : list result :=
  let relevant_chunks := filter relevant context_chunks in
  if is_empty relevant_chunks then
    if is_empty context_chunks then [] else slice context_chunks 0 3
  else relevant_chunks.

(** The chunks the loop of line 115 visits. *)
Definition prompt_chunks (context_chunks : list result) : list result :=
  slice (relevant_chunks context_chunks) 0 3.

Definition nl : str := [10%N].

Definition decimal (n : nat) : str :=
  lit (DecimalString.NilZero.string_of_uint (Nat.to_uint n)).

(** [f"Information {i+1}: {chunk['text']}"] for [enumerate] from [i]. *)
Fixpoint context_parts (i : nat) (l : list result) : list str :=
  match l with
  | [] => []
  | chunk :: l' =>
      (lit "Information " ++ decimal (i + 1) ++ lit ": " ++ text chunk)
        :: context_parts (S i) l'
  end.

(** [sep.join(parts)] *)
Fixpoint join (sep : str) (parts : list str) : str :=
  match parts with
  | [] => []
  | [p] => p
  | p :: rest => p ++ sep ++ join sep rest
  end.

Definition context (context_chunks : list result) : str :=
  let relevant_chunks := relevant_chunks context_chunks in
  if is_empty relevant_chunks then
    lit "General information about Kumaraguru College of Technology (KCT), a premier engineering institution in Coimbatore, Tamil Nadu."
  else join (nl ++ nl) (context_parts 0 (slice relevant_chunks 0 3)).

Definition create_conversational_prompt (query : str)
  (context_chunks : list result) : str :=
  lit "You are a helpful assistant for Kumaraguru College of Technology (KCT)."
  ++ nl ++ nl ++ lit "QUESTION: " ++ query
  ++ nl ++ nl ++ lit "AVAILABLE INFORMATION:" ++ nl
  ++ context context_chunks
  ++ nl ++ nl ++ lit "INSTRUCTIONS:" ++ nl
  ++ lit "1. Provide a clear, concise answer using the information available" ++ nl
  ++ lit "2. Be conversational and friendly" ++ nl
  ++ lit "3. Use appropriate emojis to make the response engaging" ++ nl
  ++ lit "4. Break down information into clear sections" ++ nl
  ++ lit "5. Highlight important points" ++ nl
  ++ lit "6. Do NOT include any source citations, references, or links in your response" ++ nl
  ++ lit "7. If you don't have specific information, provide general helpful guidance" ++ nl
  ++ nl ++ lit "FORMAT YOUR RESPONSE:" ++ nl
  ++ lit "[Your natural response here without any sources or citations]".

End QueryBot.

(* ================================================================== *)
(** * Concrete inputs used by the examples *)
(* ================================================================== *)

Module Inputs.
Import Py.

(** A content of 1000 characters whose only sentence end is at index
    200. *)
Definition far_sentence_end : str :=
  repeat 97%N 200 ++ [46%N] ++ repeat 97%N 799.

(** 1200 characters, a single space at index 599, no sentence end. *)
Definition space_at_cut : str :=
  repeat 97%N 599 ++ [32%N] ++ repeat 97%N 600.

(** 1000 characters whose only sentence end is at index 51. *)
Definition early_sentence_end : str :=
  repeat 97%N 51 ++ [46%N] ++ repeat 97%N 948.

(** 120 letters: one window, one chunk. *)
Definition short_content : str := repeat 97%N 120.

(** [str.isalnum] on ASCII. *)
Definition ascii_isalnum (c : char) : bool :=
  ((48 <=? c) && (c <=? 57) || (65 <=? c) && (c <=? 90)
   || (97 <=? c) && (c <=? 122))%N.

(** Four records: not a dict, a long text, a content that is not a
    string, a text of one chunk with its own url. *)
Definition sample_data : list pyval :=
  [ PStr (lit "stray");
    PDict [(lit "content", PStr (repeat 97%N 700))];
    PDict [(lit "content", PInt 3)];
    PDict [(lit "content", PStr short_content);
           (lit "url", PStr (lit "https://x"));
           (lit "section", PStr (lit "S"))] ].

Definition sample_chunks : list str :=
  [repeat 97%N 600; repeat 97%N 250; short_content].

Definition sample_metadata : list Preprocess.chunk_meta :=
  [ {| Preprocess.url := PStr (lit "https://kct.ac.in");
       Preprocess.section := PStr (lit "General");
       Preprocess.content_length := 600;
       Preprocess.original_content := repeat 97%N 150 ++ lit "...";
       Preprocess.source_entry := 1 |};
    {| Preprocess.url := PStr (lit "https://kct.ac.in");
       Preprocess.section := PStr (lit "General");
       Preprocess.content_length := 250;
       Preprocess.original_content := repeat 97%N 150 ++ lit "...";
       Preprocess.source_entry := 1 |};
    {| Preprocess.url := PStr (lit "https://x");
       Preprocess.section := PStr (lit "S");
       Preprocess.content_length := 120;
       Preprocess.original_content := short_content;
       Preprocess.source_entry := 3 |} ].

(** [str.lower] on ASCII. *)
Definition ascii_lower (s : str) : str :=
  map (fun c => if ((65 <=? c) && (c <=? 90))%N then (c + 32)%N else c) s.

(** Ten loaded chunks, named by their ordinal, with their metadata. *)
Definition toy_chunks : list str := map QueryBot.decimal (seq 0 10).

Definition toy_metadata : list Preprocess.chunk_meta :=
  map (fun n => {| Preprocess.url := PStr (lit "https://kct.ac.in");
                   Preprocess.section := PStr (lit "General");
                   Preprocess.content_length := 1;
                   Preprocess.original_content := QueryBot.decimal n;
                   Preprocess.source_entry := n |}) (seq 0 10).

Definition toy_loaded : QueryBot.globals unit unit :=
  {| QueryBot.model := Some tt; QueryBot.index := Some tt;
     QueryBot.metadata := toy_metadata; QueryBot.chunks := toy_chunks |}.

(** The [float32] nearest to [p / q]. *)
Definition f32 (p q : Z) : spec_float := f32_div (f32_of_int p) (f32_of_int q).

(** The index answers ordinals 5, 2, 9 at distances 0.1, 0.5, 0.05. *)
Definition toy_search (_ : unit) (_ : unit) (_ : Z)
  : outcome (list (spec_float * Z)) :=
  Ok [(f32 1 10, 5); (f32 1 2, 2); (f32 1 20, 9)].

(** The index answers ordinals 5, 2, 9 at distances 1, NaN, 0. *)
Definition nan_search (_ : unit) (_ : unit) (_ : Z)
  : outcome (list (spec_float * Z)) :=
  Ok [(f32 1 1, 5); (S754_nan, 2); (S754_zero false, 9)].

Definition toy_encode (_ : unit) (_ : list str) : outcome unit := Ok tt.

Definition failing_encode (_ : unit) (_ : list str) : outcome unit :=
  Raise ExternalError.

(** An encoder that fails on the anchored form of "hostel facilities"
    and on no other text. *)
Definition anchored_fails (_ : unit) (texts : list str) : outcome unit :=
  match texts with
  | [text] =>
      if str_eqb text
           (lit "Kumaraguru College of Technology hostel facilities")
      then Raise ExternalError
      else Ok tt
  | _ => Ok tt
  end.

(** The index file and the metadata file are there and load; the chunk
    store [kct_chunks.json] is absent. *)
Definition chunk_store_missing : QueryBot.files unit :=
  {| QueryBot.index_file := Some (Ok tt);
     QueryBot.metadata_file := Some (Ok toy_metadata);
     QueryBot.chunks_file := None |}.

(** Four results, all of relevance one half. *)
Definition half_hit (n : nat) : QueryBot.result :=
  {| QueryBot.text := QueryBot.decimal n;
     QueryBot.relevance_score := Float32 (f32 1 2);
     QueryBot.distance := Float32 (f32 1 1);
     QueryBot.meta := None |}.

Definition four_hits : list QueryBot.result := map half_hit (seq 0 4).

Definition no_files : QueryBot.files unit :=
  {| QueryBot.index_file := None;
     QueryBot.metadata_file := None;
     QueryBot.chunks_file := None |}.

End Inputs.

(* ================================================================== *)
(** * Notions used to state further properties *)
(* ================================================================== *)

Module Notions.
Import Py Preprocess.

(** [sub] occurs in [s] as a run of consecutive characters. *)
Definition substring (sub s : str) : Prop :=
  exists pre post, s = pre ++ sub ++ post.

(** [s] neither starts nor ends with a whitespace character. *)
Definition trimmed (s : str) : Prop :=
  (forall c rest, s = c :: rest -> isspace c = false)
  /\ (forall front c, s = front ++ [c] -> isspace c = false).

(** The three chunks of [Inputs.space_at_cut] with the defaults. *)
Definition space_at_cut_chunks : list str :=
  [repeat 97%N 599; repeat 97%N 149 ++ [32%N] ++ repeat 97%N 450;
   repeat 97%N 300].

(** The chunks that record [entry] contributes to the build: those of
    its cleaned content, none when the record is skipped (not a dict,
    content not a string, cleaned content under 30 characters, or the
    chunker raised). *)
Definition entry_chunks (isalnum : char -> bool) (fuel : nat)
  (chunk_size overlap : Z) (entry : pyval) : list str :=
  match bind (get entry (lit "content") (PStr [])) (clean_text_val isalnum)
  with
  | Ok content =>
      if len content <? 30 then []
      else
        match smart_chunking fuel content chunk_size overlap with
        | Some (Ok content_chunks) => content_chunks
        | _ => []
        end
  | Raise _ => []
  end.

(** The metadata dict made for [chunk] of record [i]. *)
Definition meta_of (url section : pyval) (content : str) (i : nat)
  (chunk : str) : chunk_meta :=
  {| url := url;
     section := section;
     content_length := len chunk;
     original_content := preview content;
     source_entry := i |}.

(** The metadata made so far come from records before [i], in order. *)
Definition in_record_order (i : nat) (metadata : list chunk_meta) : Prop :=
  Forall (fun m => (source_entry m < i)%nat) metadata
  /\ StronglySorted le (map source_entry metadata).

(** Search result [x] was assembled from one of [hits]: its text and
    its metadata are the entries at the ordinal of that hit, and its
    distance is that of the hit. *)
Definition from_hit (chunks : list str) (metadata : list chunk_meta)
  (hits : list (spec_float * Z)) (x : QueryBot.result) : Prop :=
  exists d idx m,
    In (d, idx) hits
    /\ QueryBot.distance x = Float32 d
    /\ idx < len chunks /\ idx < len metadata
    /\ Py.index chunks idx = Some (QueryBot.text x)
    /\ Py.index metadata idx = Some m
    /\ QueryBot.meta x = Some m.

(** The result dict of lines 91 to 96. *)
Definition result_of (chunk_text : str) (d : spec_float) (m : chunk_meta)
  : QueryBot.result :=
  {| QueryBot.text := chunk_text;
     QueryBot.relevance_score := Float32 (QueryBot.score d);
     QueryBot.distance := Float32 d;
     QueryBot.meta := Some m |}.

(** The two results of [Inputs.toy_search] kept for [k = 2]: ordinal 9,
    then ordinal 5. *)
Definition toy_meta (n : nat) : chunk_meta :=
  {| url := PStr (lit "https://kct.ac.in");
     section := PStr (lit "General");
     content_length := 1;
     original_content := QueryBot.decimal n;
     source_entry := n |}.

(** The three results assembled from the answer of [Inputs.toy_search],
    in the order of that answer. *)
Definition toy_found : list QueryBot.result :=
  [ result_of (QueryBot.decimal 5) (Inputs.f32 1 10) (toy_meta 5);
    result_of (QueryBot.decimal 2) (Inputs.f32 1 2) (toy_meta 2);
    result_of (QueryBot.decimal 9) (Inputs.f32 1 20) (toy_meta 9) ].

Definition toy_results : list QueryBot.result :=
  [ result_of (QueryBot.decimal 9) (Inputs.f32 1 20) (toy_meta 9);
    result_of (QueryBot.decimal 5) (Inputs.f32 1 10) (toy_meta 5) ].


Definition surrogate_metadata : list chunk_meta :=
  [ {| url := PStr [55296%N];
       section := PStr (lit "General");
       content_length := 120;
       original_content := Inputs.short_content;
       source_entry := 0 |} ].

(** The index answers ordinal 9 at distance [1e-10], then ordinal 5 at
    distance 0. *)
Definition tie_search (_ : unit) (_ : unit) (_ : Z)
  : outcome (list (spec_float * Z)) :=
  Ok [(Inputs.f32 1 10000000000, 9); (S754_zero false, 5)].

(** An index answer with an ordinal below [-len(chunks)]. *)
Definition bad_search (_ : unit) (_ : unit) (_ : Z)
  : outcome (list (spec_float * Z)) :=
  Ok [(Inputs.f32 1 10, 5); (Inputs.f32 1 2, -11)].

End Notions.

(* ================================================================== *)
(** * Files and the scripts around the chunker *)
(* ================================================================== *)

Module Files.
Import Py.

(** What the scripts outside [query_bot.py] can raise. *)
Inductive error : Type :=
| KeyError
| TypeError
| ZeroDivisionError
| ValueError
| UnicodeEncodeError
| OSError
| Other (e : exn).

Inductive res (A : Type) : Type :=
| Done (a : A)
| Fail (e : error).
Arguments Done {A} a.
Arguments Fail {A} e.

Definition of_outcome {A} (o : outcome A) : res A :=
  match o with
  | Ok a => Done a
  | Raise e => Fail (Other e)
  end.

(** [v[key]] for a string key. *)
Definition subscript (v : pyval) (key : str) : res pyval :=
  match v with
  | PDict items =>
      match assoc key items with
      | Some x => Done x
      | None => Fail KeyError
      end
  | _ => Fail TypeError
  end.

(** [len(v)] *)
Definition py_len (v : pyval) : res Z :=
  match v with
  | PStr s => Done (len s)
  | PList l => Done (len l)
  | PDict items => Done (len items)
  | _ => Fail TypeError
  end.

(** [for c in v] *)
Definition iterate (v : pyval) : res (list pyval) :=
  match v with
  | PStr s => Done (map (fun c => PStr [c]) s)
  | PList l => Done l
  | PDict items => Done (map (fun kv => PStr (fst kv)) items)
  | _ => Fail TypeError
  end.

(** [sum(len(c) for c in items)], from the running total [total]. *)
Fixpoint sum_len (items : list pyval) (total : Z) : res Z :=
  match items with
  | [] => Done total
  | c :: rest =>
      match py_len c with
      | Done n => sum_len rest (total + n)
      | Fail e => Fail e
      end
  end.

(** [sum(len(c) for c in v) / len(v)], as a rational. *)
Definition average_length (v : pyval) : res Q :=
  match iterate v with
  | Fail e => Fail e
  | Done items =>
      match sum_len items 0 with
      | Fail e => Fail e
      | Done total =>
          match py_len v with
          | Fail e => Fail e
          | Done n =>
              if n =? 0 then Fail ZeroDivisionError
              else Done (inject_Z total / inject_Z n)%Q
          end
      end
  end.

(** The metadata dict of [clean_and_chunk] as the value it is. *)
Definition meta_dict (m : Preprocess.chunk_meta) : pyval :=
  PDict [ (lit "url", Preprocess.url m);
          (lit "section", Preprocess.section m);
          (lit "content_length", PInt (Preprocess.content_length m));
          (lit "original_content", PStr (Preprocess.original_content m));
          (lit "source_entry", PInt (Z.of_nat (Preprocess.source_entry m))) ].

(** The document [save_chunks] dumps. *)
Definition store_doc (chunks : list str)
  (metadata : list Preprocess.chunk_meta) : pyval :=
  PDict [ (lit "chunks", PList (map PStr chunks));
          (lit "metadata", PList (map meta_dict metadata));
          (lit "total_chunks", PInt (len chunks)) ].

(** A surrogate code point, which UTF-8 does not encode. *)
Definition surrogate (c : char) : bool := ((55296 <=? c) && (c <=? 57343))%N.

Definition utf8 (s : str) : bool := forallb (fun c => negb (surrogate c)) s.

(** The text that [json.dump(v, f, ensure_ascii=False)] writes can be
    encoded: no string or key of [v] has a surrogate. *)
Fixpoint encodable (v : pyval) : bool :=
  match v with
  | PStr s => utf8 s
  | PList l => forallb encodable l
  | PDict items => forallb (fun kv => utf8 (fst kv) && encodable (snd kv)) items
  | _ => true
  end.

Definition chunks_path : str := lit "vectorstore/kct_chunks.json".
Definition index_path : str := lit "vectorstore/kct_index.faiss".
Definition metadata_path : str := lit "vectorstore/kct_metadata.pkl".

Section Disk.

(** The vector index is opaque. *)
Variable Index : Type.

(** A file holds a JSON document, a pickled value or a FAISS index, or
    the beginning of a JSON text that a failed dump left behind. *)
Inductive blob : Type :=
| JsonDoc (v : pyval)
| Pickled (v : pyval)
| FaissIndex (ix : Index)
| Truncated.

(** The files by path; a path is listed once, by its latest writing. *)
Definition disk : Type := list (str * blob).

Fixpoint lookup (path : str) (d : disk) : option blob :=
  match d with
  | [] => None
  | (p, b) :: d' => if str_eqb p path then Some b else lookup path d'
  end.

(** Which paths can be created or opened for writing. *)
Variable writable : str -> bool.

(** State and exception monad over the disk. *)
Definition IO (A : Type) : Type := disk -> disk * res A.

Definition io_ret {A} (a : A) : IO A := fun d => (d, Done a).

Definition io_lift {A} (r : res A) : IO A := fun d => (d, r).

Definition io_bind {A B} (m : IO A) (f : A -> IO B) : IO B :=
  fun d =>
    match m d with
    | (d', Done a) => f a d'
    | (d', Fail e) => (d', Fail e)
    end.

Definition io_try {A} (body : IO A) (handler : error -> IO A) : IO A :=
  fun d =>
    match body d with
    | (d', Done a) => (d', Done a)
    | (d', Fail e) => handler e d'
    end.

(** [os.path.exists(path)] *)
Definition exists_file (path : str) : IO bool :=
  fun d => (d, Done (match lookup path d with
                     | Some _ => true
                     | None => false
                     end)).

(** The disk once [path] holds [b]. *)
Definition stored (path : str) (b : blob) (d : disk) : disk :=
  (path, b) :: filter (fun pb => negb (str_eqb (fst pb) path)) d.

(** The binary writes, [faiss.write_index(index, path)] and
    [pickle.dump(v, f)] into [open(path, "wb")]. *)
Definition write_file (path : str) (b : blob) : IO unit :=
  fun d =>
    if writable path then (stored path b d, Done tt)
    else (d, Fail OSError).

(** [json.dump(v, f, indent=2, ensure_ascii=False)] into
    [open(path, "w", encoding="utf-8")].  Opening empties the file; the
    text is written piece by piece, and a string with a surrogate stops
    the dump with UnicodeEncodeError, the file keeping the pieces
    written before it. *)
Definition write_json (path : str) (v : pyval) : IO unit :=
  fun d =>
    if writable path then
      if encodable v then (stored path (JsonDoc v) d, Done tt)
      else (stored path Truncated d, Fail UnicodeEncodeError)
    else (d, Fail OSError).

(** [os.makedirs(dir, exist_ok=True)] *)
Definition makedirs (dir : str) : IO unit :=
  fun d => if writable dir then (d, Done tt) else (d, Fail OSError).

(** [json.load] of the file at [path]. *)
Definition read_json (path : str) : IO pyval :=
  fun d =>
    match lookup path d with
    | Some (JsonDoc v) => (d, Done v)
    | Some _ => (d, Fail ValueError)
    | None => (d, Fail OSError)
    end.

End Disk.

Arguments JsonDoc {Index} v.
Arguments Pickled {Index} v.
Arguments FaissIndex {Index} ix.
Arguments Truncated {Index}.
Arguments stored {Index} path b d.
Arguments lookup {Index} path d.
Arguments io_ret {Index A} a _.
Arguments io_lift {Index A} r _.
Arguments io_bind {Index A B} m f _.
Arguments io_try {Index A} body handler _.
Arguments exists_file {Index} path _.
Arguments write_file {Index} writable path b _.
Arguments write_json {Index} writable path v _.
Arguments makedirs {Index} writable dir _.
Arguments read_json {Index} path _.

End Files.

Notation "x <-- m ;; k" := (Files.io_bind m (fun x => k))
  (at level 61, m at next level, right associativity, only parsing).
Notation "m ;;> k" := (Files.io_bind m (fun _ => k))
  (at level 61, right associativity, only parsing).

(* ================================================================== *)
(** * scripts/preprocess.py: loading, saving, the script *)
(* ================================================================== *)

Module PreprocessIO.
Import Py Preprocess Files.

(** [load_json_files].  [sources] lists, in the order of [glob.glob],
    what opening and parsing each file found gives. *)
Definition load_json_files (sources : list (res pyval)) : list pyval :=
  fold_left
    (fun all_data source =>
       match source with
       | Done (PList data) => all_data ++ data
       | _ => all_data
       end)
    sources [].

(** Ghost: the records one source contributes. *)
Definition listed (source : res pyval) : list pyval :=
  match source with
  | Done (PList data) => data
  | _ => []
  end.

Section Script.

Variable Index : Type.
Variable writable : str -> bool.

Definition save_chunks (chunks : list str) (metadata : list chunk_meta)
  : IO Index unit :=
  makedirs writable (lit "vectorstore") ;;>
  write_json writable chunks_path (store_doc chunks metadata) ;;>
  _ <-- io_lift (average_length (PList (map PStr chunks))) ;;
  io_ret tt.

(** How the script ends. *)
Inductive ending : Type :=
| Finished
| Exited (code : Z)
| Crashed (e : error).

(** The [__main__] block; [None] when the fuel of the chunker ran out. *)
Definition main (isalnum : char -> bool) (fuel : nat)
  (sources : list (res pyval)) (d : disk Index)
  : option (disk Index * ending) :=
  let data := load_json_files sources in
  if QueryBot.is_empty data then Some (d, Exited 1)
  else
    match clean_and_chunk isalnum fuel data 600 150 with
    | None => None
    | Some (chunks, metadata) =>
        if QueryBot.is_empty chunks then Some (d, Exited 1)
        else
          match save_chunks chunks metadata d with
          | (d', Done _) => Some (d', Finished)
          | (d', Fail e) => Some (d', Crashed e)
          end
    end.

End Script.

Arguments save_chunks {Index} writable chunks metadata _.
Arguments main {Index} writable isalnum fuel sources d.

End PreprocessIO.

(* ================================================================== *)
(** * scripts/embed_store.py *)
(* ================================================================== *)

Module EmbedStore.
Import Py Files.

Section Embed.

(** The collaborators: the embedding model and FAISS. *)
Variables Model Index Emb : Type.
Variable load_model : outcome Model.
Variable encode_chunks : Model -> pyval -> outcome Emb.
Variable build_index : Emb -> outcome Index.
Variable writable : str -> bool.

Definition create_enhanced_index : IO Index bool :=
  io_try
    (present <-- exists_file chunks_path ;;
     if negb present then io_ret false
     else
       data <-- read_json chunks_path ;;
       chunks <-- io_lift (subscript data (lit "chunks")) ;;
       metadata <-- io_lift (subscript data (lit "metadata")) ;;
       _ <-- io_lift (py_len chunks) ;;
       _ <-- io_lift (py_len metadata) ;;
       _ <-- io_lift (average_length chunks) ;;
       n <-- io_lift (py_len chunks) ;;
       if n =? 0 then io_ret false
       else
         model <-- io_lift (of_outcome load_model) ;;
         embeddings <-- io_lift (of_outcome (encode_chunks model chunks)) ;;
         index <-- io_lift (of_outcome (build_index embeddings)) ;;
         write_file writable index_path (FaissIndex index) ;;>
         write_file writable metadata_path (Pickled metadata) ;;>
         io_ret true)
    (fun _ => io_ret false).

(** Ghost: the files as [query_bot.initialize_system] sees them, for a
    disk whose metadata and chunk store hold what the build writes. *)
Definition reflects (d : disk Index) (fs : QueryBot.files Index) : Prop :=
  QueryBot.index_file fs
  = match lookup index_path d with
    | None => None
    | Some (FaissIndex ix) => Some (Ok ix)
    | Some _ => Some (Raise ExternalError)
    end
  /\ match lookup metadata_path d with
     | None => QueryBot.metadata_file fs = None
     | Some (Pickled (PList l)) =>
         exists md,
           l = map meta_dict md /\ QueryBot.metadata_file fs = Some (Ok md)
     | Some (Pickled _) => False
     | Some _ => exists e, QueryBot.metadata_file fs = Some (Raise e)
     end
  /\ match lookup chunks_path d with
     | None => QueryBot.chunks_file fs = None
     | Some (JsonDoc doc) =>
         match get doc (lit "chunks") (PList []) with
         | Ok (PList l) =>
             exists cs,
               l = map PStr cs /\ QueryBot.chunks_file fs = Some (Ok cs)
         | Ok _ => False
         | Raise e => QueryBot.chunks_file fs = Some (Raise e)
         end
     | Some _ => exists e, QueryBot.chunks_file fs = Some (Raise e)
     end.

End Embed.

Arguments create_enhanced_index {Model Index Emb} load_model encode_chunks
  build_index writable _.
Arguments reflects {Index} d fs.

(** The disk after the script has run on [Inputs.sample_data], and
    after the index has been built from it by collaborators that
    succeed. *)
Definition built_disk : disk unit :=
  [ (chunks_path,
     JsonDoc (store_doc Inputs.sample_chunks Inputs.sample_metadata)) ].

Definition indexed_disk : disk unit :=
  [ (metadata_path, Pickled (PList (map meta_dict Inputs.sample_metadata)));
    (index_path, FaissIndex tt);
    (chunks_path,
     JsonDoc (store_doc Inputs.sample_chunks Inputs.sample_metadata)) ].

Definition indexed_files : QueryBot.files unit :=
  {| QueryBot.index_file := Some (Ok tt);
     QueryBot.metadata_file := Some (Ok Inputs.sample_metadata);
     QueryBot.chunks_file := Some (Ok Inputs.sample_chunks) |}.

(** A disk whose chunk store has no chunk. *)
Definition empty_store : disk unit :=
  [ (chunks_path, JsonDoc (store_doc [] [])) ].

Definition any_encoder (_ : unit) (_ : pyval) : outcome unit := Ok tt.

Definition any_builder (_ : unit) : outcome unit := Ok tt.

Definition all_writable (_ : str) : bool := true.

End EmbedStore.

(* ================================================================== *)
(** * scripts/query_bot.py: the answer, and its caller in app.py *)
(* ================================================================== *)

Module Answer.
Import Py QueryBot.

Definition not_found_message : str :=
  lit "I couldn't find relevant information about that topic. Please contact KCT directly for more details.".

(** The three paragraphs the two fallback messages share; U+1F393 ends
    its first line. *)
Definition fallback_head : str :=
  lit "Hello! I'm here to help you learn about Kumaraguru College of Technology (KCT). "
  ++ [127891%N] ++ nl ++ nl
  ++ lit "KCT is a premier engineering institution in Coimbatore, Tamil Nadu. We offer various undergraduate and postgraduate programs in engineering and technology."
  ++ nl ++ nl
  ++ lit "The college has state-of-the-art facilities, experienced faculty members, and an excellent placement record."
  ++ nl ++ nl.

Definition generation_fallback : str :=
  fallback_head
  ++ lit "Please feel free to ask me about programs, admissions, facilities, or any other aspect of KCT!".

Definition knowledge_base_fallback : str :=
  fallback_head ++ lit "What would you like to know about KCT today?".

Definition indent : str := repeat 32%N 20.

Definition system_message : str :=
  lit "You are a helpful assistant for KCT. Follow these rules:" ++ nl
  ++ indent ++ lit "1. Only use information from the provided sources" ++ nl
  ++ indent ++ lit "2. Be conversational and friendly" ++ nl
  ++ indent ++ lit "3. Use appropriate emojis" ++ nl
  ++ indent
  ++ lit "4. Do NOT include any source citations, references, or links" ++ nl
  ++ indent ++ lit "5. Make your response engaging and informative" ++ nl
  ++ indent ++ lit "6. Break down information into clear sections".

Section Generator.

Variables Model Index Vec : Type.
Variable load_model : outcome Model.
Variable encode : Model -> list str -> outcome Vec.
Variable index_search : Index -> Vec -> Z -> outcome (list (spec_float * Z)).
Variable lower : str -> str.
Variable fs : files Index.

(** The hosted language model: the system message and the user message
    give the content of the first choice, or the call (or reading the
    content) raises. *)
Variable chat : str -> str -> outcome str.

(** The four [re.sub] of lines 177 to 180, a total function on
    strings. *)
Variable remove_sources : str -> str.

Local Notation "x <- m ;; k" := (mbind m (fun x => k))
  (at level 61, m at next level, right associativity).
Local Notation "m ;;; k" := (mbind m (fun _ => k))
  (at level 61, right associativity).

(** Ghost: the answer for given search results. *)
Definition answer_for (query : str) (results : list result) : str :=
  if is_empty results then not_found_message
  else
    match chat system_message (create_conversational_prompt query results)
    with
    | Ok content => strip (remove_sources (strip content))
    | Raise _ => generation_fallback
    end.

Definition generate_response_without_sources (query : str)
  : M Model Index str :=
  try_catch
    (g <- read ;;
     (if is_none (model g)
      then initialize_system load_model fs ;;; ret tt
      else ret tt) ;;;
     context_chunks <-
       enhanced_semantic_search load_model encode index_search lower fs
         query 5 ;;
     if is_empty context_chunks then ret not_found_message
     else
       let prompt := create_conversational_prompt query context_chunks in
       content <- call (chat system_message prompt) ;;
       let answer := strip content in
       let answer := remove_sources answer in
       ret (strip answer))
    (fun _ => ret generation_fallback).

Definition query_knowledge_base (query : str) : M Model Index str :=
  try_catch
    (g <- read ;;
     (if is_none (model g) || is_none (index g)
      then initialize_system load_model fs ;;; ret tt
      else ret tt) ;;;
     response <- generate_response_without_sources query ;;
     ret response)
    (fun _ => ret knowledge_base_fallback).

(** [app.check_and_initialize]: whether the directory [vectorstore]
    exists, and what importing [scripts.query_bot] gives. *)
Definition check_and_initialize (vectorstore_exists : bool)
  (import_query_bot : outcome unit) : M Model Index bool :=
  if negb vectorstore_exists then
    early <-
      try_catch
        (call import_query_bot ;;;
         initialize_system load_model fs ;;;
         ret None)
        (fun _ => ret (Some false)) ;;
    match early with
    | Some b => ret b
    | None => ret true
    end
  else ret true.

End Generator.

Arguments generate_response_without_sources {Model Index Vec} load_model
  encode index_search lower fs chat remove_sources query _.
Arguments query_knowledge_base {Model Index Vec} load_model encode
  index_search lower fs chat remove_sources query _.
Arguments check_and_initialize {Model Index} load_model fs
  vectorstore_exists import_query_bot _.

End Answer.

(* ================================================================== *)
(** * Facts about the Python primitives *)
(* ================================================================== *)

Module PyFacts.
Import Py.

Lemma len_nonneg {A} (l : list A) : 0 <= len l.
Proof. unfold len. lia. Qed.

Lemma index_in_range {A} (l : list A) (i : Z) :
  0 <= i < len l -> exists a, index l i = Some a.
Proof.
  intros [H0 H1]. unfold index.
  destruct (Z.leb_spec 0 i) as [_|]; [|lia].
  destruct (nth_error l (Z.to_nat i)) as [a|] eqn:E; [now exists a|].
  apply nth_error_None in E. unfold len in H1. lia.
Qed.

Lemma adjust_nonneg (n i : Z) : 0 <= i -> adjust n i = Z.min i n.
Proof.
  intros H. unfold adjust. destruct (Z.ltb_spec i 0); [lia|reflexivity].
Qed.

Lemma firstn_add_skipn {A} (m k : nat) (l : list A) :
  firstn (m + k) l = firstn m l ++ firstn k (skipn m l).
Proof.
  revert l. induction m as [|m IH]; intros l; simpl; [reflexivity|].
  destruct l as [|a l]; simpl.
  - now rewrite firstn_nil.
  - now rewrite IH.
Qed.

Lemma skipn_add {A} (m k : nat) (l : list A) :
  skipn (m + k) l = skipn k (skipn m l).
Proof.
  revert l. induction m as [|m IH]; intros l; simpl; [reflexivity|].
  destruct l as [|a l]; simpl; [now rewrite skipn_nil|apply IH].
Qed.

(** [l[a:c] = l[a:b] + l[b:c]] for [0 <= a <= b <= c]. *)
Lemma slice_split {A} (l : list A) (a b c : Z) :
  0 <= a <= b -> b <= c -> slice l a c = slice l a b ++ slice l b c.
Proof.
  intros Hab Hbc. unfold slice.
  rewrite !adjust_nonneg by lia.
  set (n := len l). assert (0 <= n) by apply len_nonneg.
  set (a' := Z.min a n). set (b' := Z.min b n). set (c' := Z.min c n).
  assert (0 <= a' <= b' /\ b' <= c') as [Hab' Hbc'] by (subst a' b' c'; lia).
  replace (Z.to_nat (c' - a')) with (Z.to_nat (b' - a') + Z.to_nat (c' - b'))%nat
    by lia.
  rewrite firstn_add_skipn. f_equal. f_equal.
  rewrite <- skipn_add. f_equal. lia.
Qed.

Lemma len_slice {A} (l : list A) (a b : Z) :
  0 <= a <= b -> b <= len l -> len (slice l a b) = b - a.
Proof.
  intros Hab Hb. unfold slice. rewrite !adjust_nonneg by lia.
  unfold len in *. rewrite length_firstn, length_skipn. lia.
Qed.

End PyFacts.

(* ================================================================== *)
(** * Facts about floats *)
(* ================================================================== *)

Module FloatFacts.
Import Py.

(** ** The order of the comparisons *)

Lemma SFltb_below (x y : spec_float) :
  is_nan x = false -> is_nan y = false ->
  (SFltb x y = true <-> below x y).
Proof.
  unfold SFltb, below.
  destruct x as [sx|sx| |sx mx ex], y as [sy|sy| |sy my ey];
    try discriminate; intros _ _;
    try destruct sx; try destruct sy; simpl;
    try (split; [discriminate|lia]); try (split; [lia|lia]);
    try (split; [intros _; lia|reflexivity]).
  - change (Pos.compare_cont Eq mx my) with (Pos.compare mx my).
    destruct (Z.compare_spec ex ey), (Pos.compare_spec mx my); simpl;
      split; try discriminate; try reflexivity; try lia.
  - change (Pos.compare_cont Eq mx my) with (Pos.compare mx my).
    destruct (Z.compare_spec ex ey), (Pos.compare_spec mx my); simpl;
      split; try discriminate; try reflexivity; try lia.
Qed.

Lemma SFltb_numbers (x y : spec_float) :
  SFltb x y = true -> is_nan x = false /\ is_nan y = false.
Proof.
  unfold SFltb. destruct x, y; simpl; try discriminate; auto.
Qed.


Lemma not_below_trans (x y z : spec_float) :
  ~ below x y -> ~ below y z -> ~ below x z.
Proof. unfold below. lia. Qed.

Lemma SFltb_false_trans (x y z : spec_float) :
  is_nan x = false -> is_nan y = false -> is_nan z = false ->
  SFltb x y = false -> SFltb y z = false -> SFltb x z = false.
Proof.
  intros Hx Hy Hz Hxy Hyz.
  destruct (SFltb x z) eqn:E; [|reflexivity].
  apply (SFltb_below x z Hx Hz) in E.
  exfalso. revert E. apply (not_below_trans x y z).
  - intros H. apply (SFltb_below x y Hx Hy) in H. congruence.
  - intros H. apply (SFltb_below y z Hy Hz) in H. congruence.
Qed.

Lemma SFltb_asym (x y : spec_float) : SFltb x y = true -> SFltb y x = false.
Proof.
  intros H. destruct (SFltb_numbers x y H) as [Hx Hy].
  destruct (SFltb y x) eqn:E; [|reflexivity].
  apply (SFltb_below x y Hx Hy) in H. apply (SFltb_below y x Hy Hx) in E.
  unfold below in *. lia.
Qed.


(** ** Rounding gives a number *)










End FloatFacts.

(* ================================================================== *)
(** * The chunker *)
(* ================================================================== *)

Module ChunkerProofs.
Import Py PyFacts Preprocess Inputs.

(** ** The backward scan *)

(** The scan stops at the first sentence end it meets, the one with the
    largest index. *)
Lemma scan_found (content : str) (e0 : Z) (n : nat) :
  forall i j c,
    0 <= j -> i < len content -> i - Z.of_nat n < j <= i ->
    index content j = Some c -> is_terminal c = true ->
    (forall k c', j < k <= i -> index content k = Some c' ->
                  is_terminal c' = false) ->
    scan content e0 i n = Ok (j + 1).
Proof.
  induction n as [|n IH]; intros i j c Hj Hi Hr Hc Ht Hno; [lia|].
  simpl. destruct (Z.eq_dec i j) as [->|Hne].
  - now rewrite Hc, Ht.
  - destruct (index_in_range content i) as [c' Hc']; [lia|].
    rewrite Hc', (Hno i c') by (auto; lia).
    apply (IH (i - 1) j c); auto; try lia.
    intros k c'' Hk. apply Hno. lia.
Qed.

Lemma scan_none (content : str) (e0 : Z) (n : nat) :
  forall i,
    0 <= i - Z.of_nat n + 1 -> i < len content ->
    (forall k c', i - Z.of_nat n < k <= i -> index content k = Some c' ->
                  is_terminal c' = false) ->
    scan content e0 i n = Ok e0.
Proof.
  induction n as [|n IH]; intros i Hlo Hi Hno; [reflexivity|].
  simpl. destruct (index_in_range content i) as [c' Hc']; [lia|].
  rewrite Hc', (Hno i c') by (auto; lia).
  apply IH; try lia. intros k c'' Hk. apply Hno. lia.
Qed.

(** Inside the content the scan does not raise, and a found cut lies in
    the scanned range. *)
Lemma scan_bounds (content : str) (e0 : Z) (n : nat) :
  forall i,
    0 <= i - Z.of_nat n + 1 -> i < len content ->
    exists e, scan content e0 i n = Ok e
              /\ (e = e0 \/ i - Z.of_nat n + 2 <= e <= i + 1).
Proof.
  induction n as [|n IH]; intros i Hlo Hi.
  - exists e0. now split; [|left].
  - simpl. destruct (index_in_range content i) as [c' Hc']; [lia|].
    rewrite Hc'. destruct (is_terminal c').
    + exists (i + 1). split; [reflexivity|right; lia].
    + assert (H1 : 0 <= i - 1 - Z.of_nat n + 1) by lia.
      assert (H2 : i - 1 < len content) by lia.
      destruct (IH (i - 1) H1 H2) as (e & He & Hb).
      exists e. split; [exact He|]. destruct Hb; [now left|right; lia].
Qed.

(** ** The cut of one window *)

Lemma cut_point_bounds (content : str) (chunk_size start : Z) :
  0 <= start ->
  exists e, cut_point content chunk_size start = Ok e
    /\ (e = start + chunk_size
        \/ (start + chunk_size < len content
            /\ Z.max (start + chunk_size - 150) start + 2 <= e
               <= start + chunk_size + 1)).
Proof.
  intros Hs. unfold cut_point.
  destruct (Z.ltb_spec (start + chunk_size) (len content)) as [Hlt|Hge].
  - set (lo := Z.max (start + chunk_size - 150) start).
    destruct (Z.le_gt_cases (start + chunk_size) lo) as [Hle|Hgt].
    + replace (Z.to_nat (start + chunk_size - lo)) with O by lia.
      eexists. split; [reflexivity|now left].
    + destruct (scan_bounds content (start + chunk_size)
                  (Z.to_nat (start + chunk_size - lo))
                  (start + chunk_size) ltac:(lia) ltac:(lia))
        as (e & He & Hb).
      exists e. split; [exact He|]. destruct Hb as [->|Hb]; [now left|].
      right. split; [exact Hlt|]. lia.
  - eexists. split; [reflexivity|now left].
Qed.

(** C6, as the code has it.  With the proposed end [start + chunk_size]
    strictly inside the content (and [start >= 0]), the scan visits the
    indices from [start + chunk_size] itself down to
    [max (start + chunk_size - 150) start + 1]: at most 150 of them, a
    fixed window that does not depend on [overlap].  The first sentence
    end met (the one of largest index [i]) gives the cut [i + 1]; with
    none in the window the cut is the raw offset. *)
Theorem cut_point_window (content : str) (chunk_size start : Z) :
  0 <= start -> start + chunk_size < len content ->
  (forall i c,
      Z.max (start + chunk_size - 150) start < i <= start + chunk_size ->
      index content i = Some c -> is_terminal c = true ->
      (forall k c', i < k <= start + chunk_size ->
                    index content k = Some c' -> is_terminal c' = false) ->
      cut_point content chunk_size start = Ok (i + 1))
  /\ ((forall k c',
         Z.max (start + chunk_size - 150) start < k <= start + chunk_size ->
         index content k = Some c' -> is_terminal c' = false) ->
      cut_point content chunk_size start = Ok (start + chunk_size)).
Proof.
  intros Hs Hlt. unfold cut_point.
  destruct (Z.ltb_spec (start + chunk_size) (len content)) as [_|]; [|lia].
  set (e := start + chunk_size) in *.
  set (lo := Z.max (e - 150) start).
  split.
  - intros i c Hi Hc Ht Hno.
    apply (scan_found content e _ e i c); auto; lia.
  - intros Hno. destruct (Z.le_gt_cases e lo) as [Hle|Hgt].
    + replace (Z.to_nat (e - lo)) with O by lia. reflexivity.
    + apply scan_none; try lia.
      intros k c' Hk. apply Hno. lia.
Qed.

Lemma cut_point_window_witness :
  (forall i c,
      Z.max (0 + 600 - 150) 0 < i <= 0 + 600 ->
      index far_sentence_end i = Some c -> is_terminal c = true ->
      (forall k c', i < k <= 0 + 600 ->
                    index far_sentence_end k = Some c' ->
                    is_terminal c' = false) ->
      cut_point far_sentence_end 600 0 = Ok (i + 1))
  /\ ((forall k c',
         Z.max (0 + 600 - 150) 0 < k <= 0 + 600 ->
         index far_sentence_end k = Some c' -> is_terminal c' = false) ->
      cut_point far_sentence_end 600 0 = Ok (0 + 600)).
Proof.
  apply (cut_point_window far_sentence_end 600 0); [lia|reflexivity].
Defined.

(** C6 as the specification words it (a window of [chunk_size - overlap]
    characters) does not hold: with the defaults the sentence end 400
    characters before the proposed end is inside a window of 450 but the
    code, which looks at 150, cuts at the raw offset. *)
Lemma cut_point_not_spec_window :
  ~ (forall content chunk_size overlap start,
        start + chunk_size < len content ->
        cut_point content chunk_size start
        = spec_cut_point content chunk_size overlap start).
Proof.
  intros H. specialize (H far_sentence_end 600 150 0 eq_refl).
  vm_compute in H. discriminate H.
Qed.

(** ** No guard on the parameters *)

(** With [overlap = chunk_size] and a content that fits in one window the
    next [start] is again 0: the loop never returns, whatever the fuel. *)
Lemma overlap_equal_never_returns (content : str) (chunk_size : Z) :
  0 < len content <= chunk_size ->
  forall fuel chunks,
    smart_chunking_loop fuel content chunk_size chunk_size 0 chunks = None.
Proof.
  intros [Hpos Hle]. induction fuel as [|fuel IH]; intros chunks;
    [reflexivity|].
  simpl. destruct (Z.ltb_spec 0 (len content)) as [_|]; [|lia].
  unfold cut_point. simpl.
  destruct (Z.ltb_spec chunk_size (len content)) as [|_]; [lia|].
  replace (chunk_size - chunk_size) with 0 by lia.
  destruct (Z.leb_spec (len content) 0) as [|_]; [lia|].
  apply IH.
Qed.

(** The loop can also run forever with [chunk_size > overlap >= 0]: with
    200 and 150 a sentence end at index 51 sets [end = 52] and
    [start = -98], from where the scan meets the same sentence end
    again. *)
Lemma valid_parameters_may_loop :
  forall fuel, smart_chunking fuel early_sentence_end 200 150 = None.
Proof.
  assert (Hlen : len early_sentence_end = 1000) by reflexivity.
  assert (Hcut0 : cut_point early_sentence_end 200 0 = Ok 52)
    by (vm_compute; reflexivity).
  assert (Hcut : cut_point early_sentence_end 200 (-98) = Ok 52)
    by (vm_compute; reflexivity).
  assert (Hkeep0 : keep [] (strip (slice early_sentence_end 0 52)) = [])
    by (vm_compute; reflexivity).
  assert (Hkeep : keep [] (strip (slice early_sentence_end (-98) 52)) = [])
    by (vm_compute; reflexivity).
  assert (Hloop : forall fuel,
             smart_chunking_loop fuel early_sentence_end 200 150 (-98) []
             = None).
  { induction fuel as [|fuel IH]; [reflexivity|].
    cbn [smart_chunking_loop]. rewrite Hlen, Hcut, Hkeep.
    change (52 - 150) with (-98). exact IH. }
  intros [|fuel]; [reflexivity|]. unfold smart_chunking.
  cbn [smart_chunking_loop]. rewrite Hlen, Hcut0, Hkeep0.
  change (52 - 150) with (-98). apply Hloop.
Qed.

(** C7 at a failing input: a content of ten characters with
    [chunk_size = overlap = 100] is not rejected and the call never
    returns. *)
Theorem smart_chunking_no_guard :
  forall fuel, smart_chunking fuel (repeat 97%N 10) 100 100 = None.
Proof.
  intros fuel. unfold smart_chunking.
  apply overlap_equal_never_returns. vm_compute. split; [reflexivity|discriminate].
Qed.

(** ** The windows of the loop *)

Lemma keep_long (chunks : list str) (chunk : str) :
  Forall long chunks -> Forall long (keep chunks chunk).
Proof.
  intros H. unfold keep. destruct chunk as [|a chunk]; [exact H|].
  destruct (Z.ltb_spec 100 (len (a :: chunk))) as [Hl|_]; [|exact H].
  apply Forall_app. split; [exact H|]. constructor; [exact Hl|constructor].
Qed.

Lemma fold_keep_long (texts : list str) :
  forall chunks, Forall long chunks -> Forall long (fold_left keep texts chunks).
Proof.
  induction texts as [|t texts IH]; intros chunks H; simpl; [exact H|].
  apply IH, keep_long, H.
Qed.

(** The loop appends, in order, the kept texts of its windows, and the
    windows are chained. *)
Lemma loop_windows (content : str) (chunk_size overlap : Z) (fuel : nat) :
  forall start chunks out,
    smart_chunking_loop fuel content chunk_size overlap start chunks
    = Some (Ok out) ->
    exists ws,
      windows_loop fuel content chunk_size overlap start = Some (Ok ws)
      /\ out = fold_left keep (map (window_text content) ws) chunks
      /\ chained content chunk_size overlap start ws.
Proof.
  induction fuel as [|fuel IH]; intros start chunks out H; [discriminate H|].
  simpl in H |- *.
  destruct (start <? len content); [|exists []; now inversion H].
  destruct (cut_point content chunk_size start) as [e|x] eqn:Hcut;
    [|discriminate H].
  destruct (len content <=? e - overlap).
  - exists [(start, e)]. inversion H. simpl. now repeat split.
  - apply IH in H. destruct H as (ws & Hw & Hout & Hch).
    exists ((start, e) :: ws). rewrite Hw. unfold done. simpl.
    now repeat split.
Qed.

(** With advancing parameters a window is longer than the overlap. *)
Lemma advancing_step (content : str) (chunk_size overlap s e : Z) :
  advancing chunk_size overlap -> 0 <= s ->
  cut_point content chunk_size s = Ok e ->
  s + overlap < e /\ (e <= len content \/ e = s + chunk_size).
Proof.
  intros [Ho Hw] Hs Hcut.
  destruct (cut_point_bounds content chunk_size s Hs) as (e' & He' & Hb).
  rewrite Hcut in He'. inversion He'; subst e'. lia.
Qed.

Lemma chained_geometry (content : str) (chunk_size overlap : Z) :
  advancing chunk_size overlap ->
  forall ws start j s1 e1 s2 e2,
    0 <= start ->
    chained content chunk_size overlap start ws ->
    nth_error ws j = Some (s1, e1) ->
    nth_error ws (S j) = Some (s2, e2) ->
    s2 = e1 - overlap /\ 0 <= s1 < s2 /\ s2 <= e1 < e2.
Proof.
  intros Hadv. induction ws as [|[s e] ws IH];
    intros start j s1 e1 s2 e2 Hs Hch H1 H2; [now destruct j|].
  destruct Hch as (-> & Hcut & Hch).
  destruct (advancing_step content chunk_size overlap start e Hadv Hs Hcut)
    as [Hstep _].
  destruct j as [|j].
  - simpl in H1, H2. inversion H1; subst s1 e1.
    destruct ws as [|[s' e'] ws]; [discriminate H2|].
    simpl in H2. inversion H2; subst s2 e2.
    destruct Hch as (-> & Hcut' & _).
    destruct (advancing_step content chunk_size overlap (e - overlap) e'
                Hadv ltac:(lia) Hcut') as [Hstep' _].
    destruct Hadv as [Ho _]. lia.
  - simpl in H1. change (nth_error ws (S j) = Some (s2, e2)) in H2.
    apply (IH (e - overlap) j); auto. lia.
Qed.

(** The loop returns when the parameters are advancing: [start] grows by
    at least one per iteration and never indexes outside the content. *)
Lemma loop_returns (content : str) (chunk_size overlap : Z) :
  advancing chunk_size overlap ->
  forall fuel start chunks,
    0 <= start -> (0 < fuel)%nat -> len content - start < Z.of_nat fuel ->
    exists out,
      smart_chunking_loop fuel content chunk_size overlap start chunks
      = Some (Ok out).
Proof.
  intros Hadv. induction fuel as [|fuel IH]; intros start chunks Hs Hpos Hf.
  - lia.
  - simpl. destruct (Z.ltb_spec start (len content)) as [Hlt|Hge];
      [|now exists chunks].
    destruct (cut_point_bounds content chunk_size start Hs) as (e & He & _).
    rewrite He.
    destruct (advancing_step content chunk_size overlap start e Hadv Hs He)
      as [Hstep _].
    destruct (Z.leb_spec (len content) (e - overlap));
      [eexists; reflexivity|].
    apply IH; lia.
Qed.

Lemma smart_chunking_returns (content : str) (chunk_size overlap : Z)
  (fuel : nat) :
  advancing chunk_size overlap ->
  len content < Z.of_nat fuel ->
  exists chunks, smart_chunking fuel content chunk_size overlap
                 = Some (Ok chunks).
Proof.
  intros Hadv Hf. pose proof (len_nonneg content).
  apply loop_returns; auto; lia.
Qed.

Lemma advancing_defaults : advancing 600 150.
Proof. unfold advancing. lia. Qed.

(** C2, as the code has it.  The call returns for advancing parameters
    (the defaults are), and whenever it returns: every emitted chunk is
    longer than 100; the chunks are the kept, whitespace-trimmed texts of
    the windows [content[start:end]] of the loop, in order; each window
    after the first starts at the cut of the one before minus [overlap];
    and, for advancing parameters, two consecutive windows of which the
    first is cut inside the content share exactly the [overlap]
    characters [content[end - overlap : end]], before trimming. *)
Theorem smart_chunking_windows (content : str) (chunk_size overlap : Z) :
  (advancing chunk_size overlap ->
   exists fuel chunks,
     smart_chunking fuel content chunk_size overlap = Some (Ok chunks))
  /\ forall fuel chunks,
      smart_chunking fuel content chunk_size overlap = Some (Ok chunks) ->
      Forall long chunks
      /\ exists ws,
          windows fuel content chunk_size overlap = Some (Ok ws)
          /\ chunks = emitted content ws
          /\ chained content chunk_size overlap 0 ws
          /\ (advancing chunk_size overlap ->
              forall j s1 e1 s2 e2,
                nth_error ws j = Some (s1, e1) ->
                nth_error ws (S j) = Some (s2, e2) ->
                e1 <= len content ->
                s2 = e1 - overlap
                /\ slice content s1 e1
                   = slice content s1 s2 ++ slice content s2 e1
                /\ slice content s2 e2
                   = slice content s2 e1 ++ slice content e1 e2
                /\ len (slice content s2 e1) = overlap).
Proof.
  split.
  - intros Hadv. exists (S (Z.to_nat (len content))).
    apply smart_chunking_returns; [exact Hadv|lia].
  - intros fuel chunks H. unfold smart_chunking in H.
    destruct (loop_windows content chunk_size overlap fuel 0 [] chunks H)
      as (ws & Hw & Hout & Hch).
    split.
    + rewrite Hout. apply fold_keep_long. constructor.
    + exists ws. repeat (split; [assumption|]).
      intros Hadv j s1 e1 s2 e2 H1 H2 Hin.
      destruct (chained_geometry content chunk_size overlap Hadv ws 0 j
                  s1 e1 s2 e2 ltac:(lia) Hch H1 H2) as (Hs2 & Hs1 & He).
      split; [exact Hs2|]. split; [apply slice_split; lia|].
      split; [apply slice_split; lia|]. rewrite len_slice; lia.
Qed.

(** The defaults on [space_at_cut], 1200 characters: three windows,
    each cut inside the content but the last; the second starts 150
    before the cut of the first, the third 150 before the cut of the
    second, and each pair shares exactly those 150 characters. *)
Lemma smart_chunking_windows_witness :
  exists ws,
    windows 4 space_at_cut 600 150 = Some (Ok ws)
    /\ ws = [(0, 600); (450, 1050); (900, 1500)]
    /\ [repeat 97%N 599; repeat 97%N 149 ++ [32%N] ++ repeat 97%N 450;
        repeat 97%N 300]
       = emitted space_at_cut ws
    /\ (450 = 600 - 150
        /\ slice space_at_cut 0 600
           = slice space_at_cut 0 450 ++ slice space_at_cut 450 600
        /\ slice space_at_cut 450 1050
           = slice space_at_cut 450 600 ++ slice space_at_cut 600 1050
        /\ len (slice space_at_cut 450 600) = 150)
    /\ (900 = 1050 - 150
        /\ slice space_at_cut 450 1050
           = slice space_at_cut 450 900 ++ slice space_at_cut 900 1050
        /\ slice space_at_cut 900 1500
           = slice space_at_cut 900 1050 ++ slice space_at_cut 1050 1500
        /\ len (slice space_at_cut 900 1050) = 150).
Proof.
  destruct (proj2 (smart_chunking_windows space_at_cut 600 150) 4%nat
              [repeat 97%N 599;
               repeat 97%N 149 ++ [32%N] ++ repeat 97%N 450;
               repeat 97%N 300])
    as (_ & ws & Hw & Hout & _ & Hov); [vm_compute; reflexivity|].
  assert (Hws : ws = [(0, 600); (450, 1050); (900, 1500)]).
  { vm_compute in Hw. now inversion Hw. }
  exists ws. split; [exact Hw|]. split; [exact Hws|]. split; [exact Hout|].
  specialize (Hov advancing_defaults). subst ws. split.
  - apply (Hov 0%nat 0 600 450 1050 eq_refl eq_refl).
    vm_compute. discriminate.
  - apply (Hov 1%nat 450 1050 900 1500 eq_refl eq_refl).
    vm_compute. discriminate.
Defined.

(** C2 as stated does not hold for the emitted chunks: with the defaults
    and a space where the first window is cut, the first two of three
    chunks share 149 characters, not 150, because the chunk is trimmed. *)
Lemma trimmed_chunks_overlap_less :
  exists chunks c1 c2,
    smart_chunking 4 space_at_cut 600 150 = Some (Ok chunks)
    /\ 600 < len space_at_cut
    /\ length chunks = 3%nat
    /\ nth_error chunks 0 = Some c1
    /\ nth_error chunks 1 = Some c2
    /\ ~ overlap_exactly 150 c1 c2.
Proof.
  exists [repeat 97%N 599; repeat 97%N 149 ++ [32%N] ++ repeat 97%N 450;
          repeat 97%N 300], (repeat 97%N 599),
         (repeat 97%N 149 ++ [32%N] ++ repeat 97%N 450).
  repeat split; try (vm_compute; reflexivity).
  intros (_ & _ & H).
  apply (f_equal (fun l => nth 149 l 0%N)) in H.
  vm_compute in H. discriminate H.
Qed.

End ChunkerProofs.

(* ================================================================== *)
(** * The build pipeline *)
(* ================================================================== *)

Module PipelineProofs.
Import Py PyFacts Preprocess Inputs ChunkerProofs.

Section Pipeline.

Variable isalnum : char -> bool.
Variable fuel : nat.
Variable data : list pyval.
Variables chunk_size overlap : Z.

Local Notation "'aligned'" :=
  (aligned_with isalnum fuel data chunk_size overlap).

Lemma append_chunks_aligned (entry url section : pyval) (content : str)
  (i : nat) (content_chunks : list str) :
  nth_error data i = Some entry ->
  bind (get entry (lit "content") (PStr [])) (clean_text_val isalnum)
  = Ok content ->
  get entry (lit "url") (PStr (lit "https://kct.ac.in")) = Ok url ->
  get entry (lit "section") (PStr (lit "General")) = Ok section ->
  smart_chunking fuel content chunk_size overlap = Some (Ok content_chunks) ->
  forall todo st,
    incl todo content_chunks -> aligned st ->
    aligned (append_chunks url section content i todo st).
Proof.
  intros Hentry Hcontent Hurl Hsection Hchunks.
  induction todo as [|chunk todo IH]; intros [chunks metadata] Hin Hst;
    [exact Hst|].
  unfold append_chunks. simpl. apply IH.
  - intros c Hc. apply Hin. now right.
  - unfold aligned_with in *. simpl in *. apply Forall2_app; [exact Hst|].
    constructor; [|constructor].
    split; [reflexivity|]. simpl.
    exists entry, content, content_chunks. repeat split; auto.
    apply Hin. now left.
Qed.

Lemma process_entry_aligned (i : nat) (entry : pyval)
  (st st' : list str * list chunk_meta) :
  nth_error data i = Some entry ->
  aligned st ->
  process_entry isalnum fuel chunk_size overlap i entry st = Some (Ok st') ->
  aligned st'.
Proof.
  intros Hentry Hst H. unfold process_entry, once, done in H.
  destruct (bind (get entry (lit "content") (PStr []))
              (clean_text_val isalnum)) as [content|] eqn:Hcontent;
    [|discriminate H].
  destruct (get entry (lit "url") (PStr (lit "https://kct.ac.in")))
    as [url|] eqn:Hurl; [|discriminate H].
  destruct (get entry (lit "section") (PStr (lit "General")))
    as [section|] eqn:Hsection; [|discriminate H].
  cbn [rbind] in H.
  destruct (len content <? 30); [now inversion H; subst|].
  destruct (smart_chunking fuel content chunk_size overlap)
    as [[content_chunks|]|] eqn:Hchunks; try discriminate H.
  cbn [rbind] in H. inversion H; subst st'.
  apply (append_chunks_aligned entry url section content i content_chunks);
    auto. apply incl_refl.
Qed.

Lemma loop_aligned (rest : list pyval) :
  forall i st res,
    (forall j e, nth_error rest j = Some e ->
                 nth_error data (i + j) = Some e) ->
    aligned st ->
    clean_and_chunk_loop isalnum fuel chunk_size overlap i rest st
    = Some res ->
    aligned res.
Proof.
  induction rest as [|entry rest IH]; intros i st res Hpos Hst H.
  - now inversion H; subst.
  - simpl in H.
    assert (Hnext : forall j e, nth_error rest j = Some e ->
                                nth_error data (S i + j) = Some e).
    { intros j e Hj. replace (S i + j)%nat with (i + S j)%nat by lia.
      now apply Hpos. }
    assert (Hentry : nth_error data i = Some entry).
    { replace i with (i + 0)%nat by lia. now apply Hpos. }
    destruct (process_entry isalnum fuel chunk_size overlap i entry st)
      as [[st'|]|] eqn:Hp; [| |discriminate H].
    + apply (IH (S i) st' res Hnext); [|exact H].
      now apply (process_entry_aligned i entry st st').
    + now apply (IH (S i) st res Hnext).
Qed.

End Pipeline.

Lemma Forall2_positions {A B} (P : A -> B -> Prop) (l1 : list A)
  (l2 : list B) :
  Forall2 P l1 l2 ->
  length l1 = length l2
  /\ forall i a b, nth_error l1 i = Some a -> nth_error l2 i = Some b ->
                   P a b.
Proof.
  induction 1 as [|a b l1 l2 Hab _ [IHl IHp]]; split; simpl.
  - reflexivity.
  - intros [|i] a b H; discriminate H.
  - now rewrite IHl.
  - intros [|i] a' b' Ha Hb; simpl in *.
    + now inversion Ha; inversion Hb; subst.
    + now apply (IHp i).
Qed.

(** ** The pipeline returns *)

Lemma process_entry_returns (isalnum : char -> bool)
  (chunk_size overlap : Z) (entry : pyval) :
  advancing chunk_size overlap ->
  exists fuel0, forall fuel i st,
      (fuel0 <= fuel)%nat ->
      exists r,
        process_entry isalnum fuel chunk_size overlap i entry st = Some r.
Proof.
  intros Hadv. unfold process_entry, once, done.
  destruct (bind (get entry (lit "content") (PStr []))
              (clean_text_val isalnum)) as [content|e];
    [|exists O; intros; eexists; reflexivity].
  destruct (get entry (lit "url") (PStr (lit "https://kct.ac.in")))
    as [url|e]; [|exists O; intros; eexists; reflexivity].
  destruct (get entry (lit "section") (PStr (lit "General")))
    as [section|e]; [|exists O; intros; eexists; reflexivity].
  exists (S (Z.to_nat (len content))). intros fuel i st Hf. cbn [rbind].
  destruct (len content <? 30); [eexists; reflexivity|].
  destruct (smart_chunking_returns content chunk_size overlap fuel Hadv)
    as [chunks Hc]; [lia|].
  rewrite Hc. eexists. reflexivity.
Qed.

Lemma loop_returns_all (isalnum : char -> bool) (chunk_size overlap : Z) :
  advancing chunk_size overlap ->
  forall data, exists fuel0, forall fuel i st,
      (fuel0 <= fuel)%nat ->
      exists res,
        clean_and_chunk_loop isalnum fuel chunk_size overlap i data st
        = Some res.
Proof.
  intros Hadv. induction data as [|entry rest [f_rest IH]].
  - exists O. intros. eexists. reflexivity.
  - destruct (process_entry_returns isalnum chunk_size overlap entry Hadv)
      as [f_entry He].
    exists (Nat.max f_entry f_rest). intros fuel i st Hf. simpl.
    destruct (He fuel i st ltac:(lia)) as [r Hr]. rewrite Hr.
    destruct r as [st'|e]; apply IH; lia.
Qed.

(** C1.  For advancing parameters (the defaults are) the pipeline
    returns; and whenever it returns, for every record list and every
    parameter pair, the chunk list and the metadata list have the same
    length and the metadata entry at each position was made for the
    chunk at that position. *)
Theorem clean_and_chunk_aligned (isalnum : char -> bool)
  (data : list pyval) (chunk_size overlap : Z) :
  (advancing chunk_size overlap ->
   exists fuel res,
     clean_and_chunk isalnum fuel data chunk_size overlap = Some res)
  /\ forall fuel chunks metadata,
      clean_and_chunk isalnum fuel data chunk_size overlap
      = Some (chunks, metadata) ->
      length chunks = length metadata
      /\ forall i chunk m,
          nth_error chunks i = Some chunk ->
          nth_error metadata i = Some m ->
          made_for isalnum fuel data chunk_size overlap chunk m.
Proof.
  split.
  - intros Hadv.
    destruct (loop_returns_all isalnum chunk_size overlap Hadv data)
      as [fuel0 H].
    exists fuel0. apply H. lia.
  - intros fuel chunks metadata H.
    apply Forall2_positions.
    apply (loop_aligned isalnum fuel data chunk_size overlap data 0
             ([], []) (chunks, metadata)); auto.
    constructor.
Qed.

Lemma clean_and_chunk_aligned_witness :
  length sample_chunks = length sample_metadata
  /\ forall i chunk m,
      nth_error sample_chunks i = Some chunk ->
      nth_error sample_metadata i = Some m ->
      made_for ascii_isalnum 3 sample_data 600 150 chunk m.
Proof.
  apply (proj2 (clean_and_chunk_aligned ascii_isalnum sample_data 600 150)
           3%nat sample_chunks sample_metadata).
  vm_compute. reflexivity.
Defined.

End PipelineProofs.

(* ================================================================== *)
(** * Ranking *)
(* ================================================================== *)

Module RankingProofs.
Import Py PyFacts FloatFacts QueryBot.

Lemma numeric_key (x : result) :
  numeric x -> exists v, key x = Float32 v /\ is_nan v = false.
Proof.
  unfold numeric, f32_number. destruct (key x) as [v|v]; [discriminate|].
  intros H. exists v. split; [reflexivity|]. now apply negb_true_iff.
Qed.

Lemma ge_key_trans (x y z : result) :
  numeric x -> numeric y -> numeric z ->
  ge_key x y -> ge_key y z -> ge_key x z.
Proof.
  intros Hx Hy Hz. unfold ge_key.
  destruct (numeric_key x Hx) as (a & -> & Ha).
  destruct (numeric_key y Hy) as (b & -> & Hb).
  destruct (numeric_key z Hz) as (c & -> & Hc).
  simpl. now apply SFltb_false_trans.
Qed.

Lemma lt_ge_key (x y : result) :
  numeric x -> numeric y -> float_lt (key x) (key y) = true -> ge_key y x.
Proof.
  intros Hx Hy. unfold ge_key.
  destruct (numeric_key x Hx) as (a & -> & _).
  destruct (numeric_key y Hy) as (b & -> & _).
  simpl. apply SFltb_asym.
Qed.

Lemma insert_desc_Forall (P : result -> Prop) (x : result) (l : list result) :
  P x -> Forall P l -> Forall P (insert_desc x l).
Proof.
  intros Hx. induction 1 as [|y l Hy Hl IH]; simpl.
  - now constructor.
  - destruct (float_lt (key x) (key y)); repeat constructor; auto.
Qed.

Lemma insert_desc_sorted (x : result) (l : list result) :
  numeric x -> Forall numeric l ->
  StronglySorted ge_key l -> StronglySorted ge_key (insert_desc x l).
Proof.
  intros Hx Hl. induction 1 as [|y l Hs IH Hy]; simpl.
  - repeat constructor.
  - inversion Hl as [|? ? Hny Hnl]; subst.
    destruct (float_lt (key x) (key y)) eqn:E.
    + constructor; [now apply IH|].
      apply insert_desc_Forall; [|exact Hy]. now apply lt_ge_key.
    + constructor; [now constructor|].
      constructor; [exact E|].
      rewrite Forall_forall in *. intros z Hz.
      apply (ge_key_trans x y z); auto.
Qed.

Lemma insert_desc_perm (x : result) (l : list result) :
  Permutation (x :: l) (insert_desc x l).
Proof.
  induction l as [|y l IH]; simpl; [reflexivity|].
  destruct (float_lt (key x) (key y)); [|reflexivity].
  rewrite perm_swap. now constructor.
Qed.

Lemma sort_desc_perm (l : list result) : Permutation l (sort_desc l).
Proof.
  induction l as [|x l IH]; simpl; [reflexivity|].
  rewrite <- insert_desc_perm. now constructor.
Qed.

Lemma sort_desc_Forall (P : result -> Prop) (l : list result) :
  Forall P l -> Forall P (sort_desc l).
Proof.
  intros H. rewrite Forall_forall in *. intros x Hx. apply H.
  eapply Permutation_in; [symmetry; apply sort_desc_perm|exact Hx].
Qed.

Lemma sort_desc_sorted (l : list result) :
  Forall numeric l -> StronglySorted ge_key (sort_desc l).
Proof.
  induction 1 as [|x l Hx Hl IH]; simpl; [constructor|].
  apply insert_desc_sorted; auto. now apply sort_desc_Forall.
Qed.



(** [l[:k]] is a prefix. *)
Lemma slice_prefix {A} (l : list A) (k : Z) :
  exists n, slice l 0 k = firstn n l /\ (0 <= k -> Z.of_nat n <= k).
Proof.
  unfold slice. pose proof (len_nonneg l) as Hn.
  rewrite (adjust_nonneg (len l) 0) by lia.
  replace (Z.min 0 (len l)) with 0 by lia. simpl skipn.
  exists (Z.to_nat (adjust (len l) k - 0)). split; [reflexivity|].
  intros Hk. rewrite adjust_nonneg by lia. lia.
Qed.

Lemma slice_firstn {A} (l : list A) (k : Z) :
  0 <= k -> slice l 0 k = firstn (Z.to_nat k) l.
Proof.
  intros Hk. unfold slice. pose proof (len_nonneg l) as Hn.
  rewrite !adjust_nonneg by lia.
  replace (Z.min 0 (len l)) with 0 by lia. simpl skipn.
  destruct (Z.le_gt_cases k (len l)) as [Hle|Hgt].
  - f_equal. lia.
  - rewrite !firstn_all2; auto; unfold len in *; lia.
Qed.



Lemma firstn_incl {A} (n : nat) (l : list A) : incl (firstn n l) l.
Proof.
  intros a Ha. rewrite <- (firstn_skipn n l). apply in_or_app. now left.
Qed.

(** ** [rank] *)



Lemma rank_incl (found : list result) (k : Z) : incl (rank found k) found.
Proof.
  unfold rank. destruct (slice_prefix (sort_desc found) k) as (n & -> & _).
  intros x Hx. apply firstn_incl in Hx.
  eapply Permutation_in; [symmetry; apply sort_desc_perm|exact Hx].
Qed.


(** ** [assemble] *)



End RankingProofs.

(* ================================================================== *)
(** * Initialisation and search *)
(* ================================================================== *)

Module SearchProofs.
Import Py PyFacts QueryBot Inputs RankingProofs.

(** Open the monadic steps of the retrieval path. *)
Ltac unfold_retrieve :=
  unfold retrieve, model_encode, index_search_k, mbind, read, call.

Ltac unfold_retrieve_in H :=
  unfold retrieve, model_encode, index_search_k, mbind, read, call in H.

Section Search.

Variables Model Index Vec : Type.
Variable load_model : outcome Model.
Variable encode : Model -> list str -> outcome Vec.
Variable index_search : Index -> Vec -> Z -> outcome (list (spec_float * Z)).
Variable lower : str -> str.
Variable fs : files Index.

(** [initialize_system] catches what it raises. *)
Lemma initialize_system_returns (g : globals Model Index) :
  exists b, snd (initialize_system load_model fs g) = Ok b.
Proof.
  unfold initialize_system, try_catch, mbind, call, ret, set_model,
    set_index, set_metadata, set_chunks, modify.
  destruct load_model as [m|e]; [|now exists false].
  destruct (index_file fs) as [[ix|e]|]; try now exists false.
  destruct (metadata_file fs) as [[md|e1]|], (chunks_file fs) as [[cs|e2]|];
    simpl; eauto.
Qed.

(** The retrieval path reads the globals and leaves them as they are. *)
Lemma retrieve_state (query : str) (k : Z) (g : globals Model Index) :
  fst (retrieve encode index_search lower query k g) = g.
Proof.
  unfold_retrieve.
  destruct (model g) as [m|]; [|reflexivity].
  destruct (encode m _) as [v|]; [|reflexivity].
  destruct (index g) as [ix|]; [|reflexivity].
  destruct (index_search ix v _) as [hits|]; reflexivity.
Qed.

(** Without a model or without an index the retrieval path raises. *)
Lemma retrieve_unloaded (query : str) (k : Z) (g : globals Model Index) :
  model g = None \/ index g = None ->
  exists e, snd (retrieve encode index_search lower query k g) = Raise e.
Proof.
  intros H. unfold_retrieve.
  destruct (model g) as [m|]; [|now eexists].
  destruct (encode m _) as [v|]; [|now eexists].
  destruct (index g) as [ix|]; [|now eexists].
  destruct H; discriminate.
Qed.

Lemma search_unfold (query : str) (k : Z) (g : globals Model Index) :
  enhanced_semantic_search load_model encode index_search lower fs query k g
  = let g1 := ready load_model fs g in
    if is_empty (chunks g1) || is_empty (metadata g1) then (g1, Ok [])
    else
      match snd (retrieve encode index_search lower query k g1) with
      | Ok found => (g1, Ok (rank found k))
      | Raise _ => (g1, Ok [])
      end.
Proof.
  unfold enhanced_semantic_search, ready.
  unfold mbind at 1. unfold read at 1.
  unfold mbind at 1.
  assert (Hinit :
    (if is_none (model g) || is_none (index g)
     then mbind (initialize_system load_model fs) (fun _ => ret tt)
     else ret tt) g
    = ((if is_none (model g) || is_none (index g)
        then fst (initialize_system load_model fs g) else g), Ok tt)).
  { destruct (is_none (model g) || is_none (index g)); [|reflexivity].
    unfold mbind, ret.
    destruct (initialize_system_returns g) as [b Hb].
    destruct (initialize_system load_model fs g) as [g' o].
    simpl in Hb. now subst o. }
  rewrite Hinit. clear Hinit.
  set (g1 := if is_none (model g) || is_none (index g)
             then fst (initialize_system load_model fs g) else g).
  unfold mbind at 1. unfold read at 1. cbv zeta.
  destruct (is_empty (chunks g1) || is_empty (metadata g1)); [reflexivity|].
  unfold try_catch, mbind, ret.
  pose proof (retrieve_state query k g1) as Hst.
  destruct (retrieve encode index_search lower query k g1) as [g2 [found|e]];
    simpl in Hst |- *; now subst g2.
Qed.

(** C3.  For every query, every [k] and every state of the globals the
    call returns a list, it does not raise; the list is empty when, once
    the initialisation of line 63 has run, the chunk list or the
    metadata list is empty or the model or the index is not loaded; and
    it is empty whenever the retrieval path (encoding, index search,
    assembly) raises. *)
Theorem search_never_raises (query : str) (k : Z) (g : globals Model Index) :
  exists results,
    enhanced_semantic_search load_model encode index_search lower fs
      query k g
    = (ready load_model fs g, Ok results)
    /\ (chunks (ready load_model fs g) = []
        \/ metadata (ready load_model fs g) = []
        \/ index (ready load_model fs g) = None
        \/ model (ready load_model fs g) = None ->
        results = [])
    /\ (forall e,
          snd (retrieve encode index_search lower query k
                 (ready load_model fs g)) = Raise e ->
          results = []).
Proof.
  rewrite search_unfold. cbv zeta.
  set (g1 := ready load_model fs g).
  destruct (is_empty (chunks g1) || is_empty (metadata g1)) eqn:Hempty.
  - exists []. repeat split.
  - apply orb_false_elim in Hempty. destruct Hempty as [Hc Hm].
    destruct (snd (retrieve encode index_search lower query k g1))
      as [found|e] eqn:Hr.
    + exists (rank found k). split; [reflexivity|]. split.
      * intros [H|[H|[H|H]]].
        -- rewrite H in Hc. discriminate Hc.
        -- rewrite H in Hm. discriminate Hm.
        -- destruct (retrieve_unloaded query k g1 (or_intror H)) as [e He].
           congruence.
        -- destruct (retrieve_unloaded query k g1 (or_introl H)) as [e He].
           congruence.
      * intros e He. discriminate He.
    + exists []. repeat split.
Qed.

(** What a retrieval that returns has done. *)
Lemma retrieve_ok (query : str) (k : Z) (g : globals Model Index)
  (found : list result) :
  snd (retrieve encode index_search lower query k g) = Ok found ->
  exists m ix v hits,
    model g = Some m
    /\ index g = Some ix
    /\ encode m [anchor_query lower query] = Ok v
    /\ index_search ix v (Z.min (k * 2) (len (chunks g))) = Ok hits
    /\ assemble (chunks g) (metadata g) hits [] = Ok found.
Proof.
  intros Hr. unfold_retrieve_in Hr.
  destruct (model g) as [m|]; [|discriminate Hr].
  destruct (encode m [anchor_query lower query]) as [v|] eqn:He;
    [|discriminate Hr].
  destruct (index g) as [ix|]; [|discriminate Hr].
  destruct (index_search ix v _) as [hits|] eqn:Hs; [|discriminate Hr].
  simpl in Hr. exists m, ix, v, hits. repeat split; auto.
Qed.


End Search.

(** With the answer of section 8 (ordinals 5, 2, 9 at distances 0.1,
    0.5, 0.05) and [k = 2] the call returns ordinal 9, then ordinal 5. *)
Example search_scenario :
  option_map (map text)
    (match snd (enhanced_semantic_search (Ok tt) toy_encode toy_search
                  ascii_lower no_files (lit "hostel facilities") 2
                  toy_loaded) with
     | Ok results => Some results
     | Raise _ => None
     end)
  = Some [lit "9"; lit "5"].
Proof. vm_compute. reflexivity. Qed.

Lemma search_never_raises_witness :
  enhanced_semantic_search (Ok tt) failing_encode toy_search ascii_lower
    no_files (lit "hostel facilities") 5 toy_loaded
  = (toy_loaded, Ok []).
Proof.
  destruct (search_never_raises unit unit unit (Ok tt) failing_encode
              toy_search ascii_lower no_files (lit "hostel facilities") 5
              toy_loaded) as (results & H & _ & Hraise).
  rewrite H. rewrite (Hraise ExternalError eq_refl). reflexivity.
Defined.



(** Two distances can have one score: [1e-10] and [0] both give 1 in
    binary32, and the sort then keeps the order of the index, the
    farther hit first. *)
Example equal_scores_keep_index_order :
  score (f32 1 10000000000) = score (S754_zero false)
  /\ map text
       (rank [ {| text := lit "far";
                  relevance_score := Float32 (score (f32 1 10000000000));
                  distance := Float32 (f32 1 10000000000);
                  meta := None |};
               {| text := lit "near";
                  relevance_score := Float32 (score (S754_zero false));
                  distance := Float32 (S754_zero false);
                  meta := None |} ] 2)
     = [lit "far"; lit "near"].
Proof. split; vm_compute; reflexivity. Qed.

(** A NaN distance gives a NaN score, which is smaller than no score:
    no result moves, and the score 1 comes after the score 0.5. *)
Example nan_distance_breaks_order :
  option_map (map relevance_score)
    (match snd (enhanced_semantic_search (Ok tt) toy_encode nan_search
                  ascii_lower no_files (lit "hostel facilities") 3
                  toy_loaded) with
     | Ok results => Some results
     | Raise _ => None
     end)
  = Some [Float32 (f32 1 2); Float32 S754_nan; Float32 (f32 1 1)]
  /\ float_lt (Float32 (f32 1 2)) (Float32 (f32 1 1)) = true.
Proof. split; vm_compute; reflexivity. Qed.

(** At distance [-1] the score is the quotient [1 / 0], infinity. *)
Example score_at_minus_one :
  score (f32_of_int (-1)) = S754_infinity false.
Proof. vm_compute. reflexivity. Qed.

(** ** Missing artifacts *)

Section Artifacts.

Variables Model Index : Type.
Variable load_model : outcome Model.
Variable fs : files Index.

(** An absent index file makes the initialisation report failure. *)
Lemma missing_index_reports_failure (g : globals Model Index) :
  index_file fs = None ->
  snd (initialize_system load_model fs g) = Ok false.
Proof.
  intros H. unfold initialize_system, try_catch, mbind, call, ret,
    set_model, modify.
  rewrite H. now destruct load_model.
Qed.

(** An absent chunk store, with the index loaded, is passed over: the
    initialisation reports success and the chunk list is unchanged. *)
Lemma missing_chunk_store_reports_success (g : globals Model Index)
  (m : Model) (ix : Index) :
  load_model = Ok m ->
  index_file fs = Some (Ok ix) ->
  (forall e, metadata_file fs <> Some (Raise e)) ->
  chunks_file fs = None ->
  snd (initialize_system load_model fs g) = Ok true
  /\ chunks (fst (initialize_system load_model fs g)) = chunks g.
Proof.
  intros Hm Hi Hmd Hc. unfold initialize_system, try_catch, mbind, call,
    ret, set_model, set_index, set_metadata, modify.
  rewrite Hm, Hi, Hc.
  destruct (metadata_file fs) as [[md|e]|]; simpl; auto.
  now destruct (Hmd e).
Qed.

End Artifacts.

(** C9 at a failing input: the index file and the metadata file load,
    the chunk store file is absent; [initialize_system] returns [True]
    and leaves the chunk list empty. *)
Theorem initialize_system_ignores_missing_chunk_store :
  initialize_system (Ok tt) chunk_store_missing initial
  = ({| model := Some tt; index := Some tt;
        metadata := toy_metadata; chunks := [] |},
     Ok true).
Proof. reflexivity. Qed.

End SearchProofs.

(* ================================================================== *)
(** * Query anchoring *)
(* ================================================================== *)

Module AnchorProofs.
Import Py PyFacts QueryBot Inputs.

Lemma is_prefix_spec (p s : str) :
  is_prefix p s = true <-> exists post, s = p ++ post.
Proof.
  revert s. induction p as [|a p IH]; intros s; simpl.
  - split; [intros _; now exists s|reflexivity].
  - destruct s as [|b s].
    + split; [discriminate|]. intros [post H]. discriminate H.
    + rewrite andb_true_iff, N.eqb_eq, IH. split.
      * intros [-> [post ->]]. now exists post.
      * intros [post H]. inversion H. split; [reflexivity|now exists post].
Qed.

Lemma contains_spec (s sub : str) :
  contains s sub = true <-> exists pre post, s = pre ++ sub ++ post.
Proof.
  induction s as [|b s IH].
  - simpl. rewrite orb_false_r, is_prefix_spec. split.
    + intros [post H]. now exists [], post.
    + intros (pre & post & H). destruct pre; [now exists post|discriminate H].
  - simpl contains. rewrite orb_true_iff, is_prefix_spec, IH. split.
    + intros [[post H]|(pre & post & H)].
      * now exists [], post.
      * exists (b :: pre), post. simpl. now rewrite H.
    + intros (pre & post & H). destruct pre as [|a pre].
      * left. now exists post.
      * right. inversion H. now exists pre, post.
Qed.

Lemma keyword_test (lower : str -> str) (q : str) :
  existsb (fun keyword => contains (lower q) (lower keyword)) kct_keywords
  = true <-> has_keyword lower q.
Proof.
  rewrite existsb_exists. unfold has_keyword. split.
  - intros (keyword & Hin & Hc). apply contains_spec in Hc.
    destruct Hc as (pre & post & Hc). now exists keyword, pre, post.
  - intros (keyword & pre & post & Hin & Hc). exists keyword.
    split; [exact Hin|]. apply contains_spec. now exists pre, post.
Qed.

Lemma anchor_changes (q : str) : q <> anchor ++ q.
Proof.
  intros H. apply (f_equal (@List.length _)) in H.
  rewrite length_app in H.
  assert (Ha : List.length anchor = 33%nat) by reflexivity. lia.
Qed.

Section Anchor.

Variables Model Index Vec : Type.
Variable encode : Model -> list str -> outcome Vec.
Variable index_search : Index -> Vec -> Z -> outcome (list (spec_float * Z)).
Variable lower : str -> str.

(** C5.  The retrieval path encodes one text, [anchor_query query]: its
    outcome is that of the encoder on that text, followed by the index
    search on the vector it gave and the assembly of the hits; when the
    encoder raises on that text the retrieval raises the same; another
    encoder that agrees on that text gives the same retrieval.  That
    text is the whitespace-normalised query with the institution phrase
    in front exactly when the lowered normalised query contains none of
    the four lowered keywords, and the normalised query itself when it
    contains one. *)
Theorem anchor_query_iff (query : str) :
  (forall (k : Z) (g : globals Model Index) m ix,
      model g = Some m ->
      index g = Some ix ->
      retrieve encode index_search lower query k g
      = (g,
         bind (encode m [anchor_query lower query]) (fun v =>
         bind (index_search ix v (Z.min (k * 2) (len (chunks g))))
           (fun hits => assemble (chunks g) (metadata g) hits []))))
  /\ (forall (k : Z) (g : globals Model Index) m e,
        model g = Some m ->
        encode m [anchor_query lower query] = Raise e ->
        retrieve encode index_search lower query k g = (g, Raise e))
  /\ (forall (k : Z) (g : globals Model Index) m encode',
        model g = Some m ->
        encode' m [anchor_query lower query]
        = encode m [anchor_query lower query] ->
        retrieve encode' index_search lower query k g
        = retrieve encode index_search lower query k g)
  /\ (anchor_query lower query = anchor ++ normalize_ws query
      <-> ~ has_keyword lower (normalize_ws query))
  /\ (has_keyword lower (normalize_ws query) ->
      anchor_query lower query = normalize_ws query).
Proof.
  split; [|split; [|split; [|split]]].
  - intros k g m ix Hm Hi.
    unfold retrieve, model_encode, index_search_k, mbind, read, call.
    rewrite Hm. destruct (encode m _) as [v|e]; [|reflexivity].
    rewrite Hi. simpl. now destruct (index_search ix v _).
  - intros k g m e Hm He.
    unfold retrieve, model_encode, mbind, read, call.
    now rewrite Hm, He.
  - intros k g m encode' Hm He.
    unfold retrieve, model_encode, mbind, read, call.
    rewrite Hm, He. reflexivity.
  - unfold anchor_query.
    destruct (existsb _ kct_keywords) eqn:E; cbn [negb].
    + apply keyword_test in E. split; [|tauto].
      intros H. now apply anchor_changes in H.
    + split; [|reflexivity]. intros _ H. apply keyword_test in H.
      congruence.
  - intros H. apply keyword_test in H. unfold anchor_query.
    now rewrite H.
Qed.

End Anchor.

(** The scenario of section 8: a keyword present, query unmodified
    (after normalisation); none present, the phrase in front; and an
    encoder that fails on the anchored text alone fails the retrieval. *)
Lemma anchor_query_iff_witness :
  anchor_query ascii_lower (lit "KCT  hostel facilities ")
  = lit "KCT hostel facilities"
  /\ anchor_query ascii_lower (lit "hostel facilities")
     = lit "Kumaraguru College of Technology hostel facilities"
  /\ retrieve anchored_fails toy_search ascii_lower
       (lit "hostel facilities") 2 toy_loaded
     = (toy_loaded, Raise ExternalError).
Proof.
  split; [|split].
  - apply (proj2 (proj2 (proj2 (proj2
             (anchor_query_iff unit unit unit toy_encode toy_search
                ascii_lower (lit "KCT  hostel facilities ")))))).
    exists (lit "KCT"), [], (lit " hostel facilities").
    split; [now left|reflexivity].
  - reflexivity.
  - apply (proj1 (proj2 (anchor_query_iff unit unit unit anchored_fails
                           toy_search ascii_lower
                           (lit "hostel facilities"))) 2 toy_loaded tt);
      reflexivity.
Defined.

End AnchorProofs.

(* ================================================================== *)
(** * The context of the prompt *)
(* ================================================================== *)

Module PromptProofs.
Import Py PyFacts QueryBot Inputs RankingProofs.

(** The test [> 0.3] on a [float32] score is made in binary32, where
    [0.3] is [10066330 * 2^-25]; on a Python [float] in binary64, where it
    is [5404319552844595 * 2^-54]. *)
Lemma relevant_iff (c : result) :
  (forall v, relevance_score c = Float32 v ->
             (relevant c = true
              <-> SFltb (S754_finite false 10066330 (-25)) v = true))
  /\ (forall v, relevance_score c = Float v ->
                (relevant c = true
                 <-> SFltb (S754_finite false 5404319552844595 (-54)) v
                     = true)).
Proof.
  unfold relevant, float_gt. split; intros v ->; reflexivity.
Qed.

Lemma is_empty_nil {A} (l : list A) : is_empty l = true <-> l = [].
Proof. destruct l; simpl; split; congruence. Qed.

Lemma relevant_chunks_cases (context_chunks : list result) :
  relevant_chunks context_chunks
  = match filter relevant context_chunks with
    | [] => firstn 3 context_chunks
    | _ :: _ => filter relevant context_chunks
    end.
Proof.
  unfold relevant_chunks.
  destruct (filter relevant context_chunks) as [|c l]; [|reflexivity].
  simpl. destruct context_chunks as [|c l]; [reflexivity|].
  simpl is_empty. now rewrite slice_firstn by lia.
Qed.

Lemma prompt_chunks_firstn (context_chunks : list result) :
  prompt_chunks context_chunks = firstn 3 (relevant_chunks context_chunks).
Proof. unfold prompt_chunks. now rewrite slice_firstn by lia. Qed.

Lemma filter_all {A} (p : A -> bool) (l : list A) :
  Forall (fun a => p a = true) l -> filter p l = l.
Proof.
  induction 1 as [|a l Ha _ IH]; simpl; [reflexivity|].
  now rewrite Ha, IH.
Qed.

Lemma filter_none {A} (p : A -> bool) (l : list A) :
  filter p l = [] -> forall n, filter p (firstn n l) = [].
Proof.
  induction l as [|a l IH]; intros H [|n]; simpl in *; try reflexivity.
  destruct (p a); [discriminate H|]. now apply IH.
Qed.

Lemma filter_Forall {A} (p : A -> bool) (l : list A) :
  Forall (fun a => p a = true) (filter p l).
Proof.
  apply Forall_forall. intros a Ha. now apply filter_In in Ha.
Qed.

Lemma firstn_Forall {A} (P : A -> Prop) (n : nat) (l : list A) :
  Forall P l -> Forall P (firstn n l).
Proof.
  intros H. rewrite <- (firstn_skipn n l) in H.
  now apply Forall_app in H.
Qed.

(** The chunks of the prompt select themselves again. *)
Lemma relevant_chunks_fixed (context_chunks : list result) :
  relevant_chunks (prompt_chunks context_chunks)
  = prompt_chunks context_chunks.
Proof.
  rewrite prompt_chunks_firstn.
  rewrite (relevant_chunks_cases (firstn 3 (relevant_chunks context_chunks))).
  rewrite (relevant_chunks_cases context_chunks).
  destruct (filter relevant context_chunks) as [|c l] eqn:E.
  - rewrite !firstn_firstn. simpl Nat.min.
    now rewrite (filter_none relevant context_chunks E 3).
  - rewrite <- E.
    rewrite (filter_all relevant (firstn 3 (filter relevant context_chunks)))
      by apply firstn_Forall, filter_Forall.
    rewrite E. reflexivity.
Qed.

Lemma context_fixed (context_chunks : list result) :
  context (prompt_chunks context_chunks) = context context_chunks.
Proof.
  unfold context. rewrite relevant_chunks_fixed.
  rewrite !slice_firstn by lia. rewrite prompt_chunks_firstn.
  rewrite firstn_firstn. simpl Nat.min.
  now destruct (relevant_chunks context_chunks).
Qed.

(** The context is made of the chunks the loop visits. *)
Lemma context_of_prompt_chunks (context_chunks : list result) :
  context_chunks <> [] ->
  context context_chunks
  = join (nl ++ nl) (context_parts 0 (prompt_chunks context_chunks)).
Proof.
  intros H. unfold context. rewrite prompt_chunks_firstn.
  rewrite slice_firstn by lia.
  assert (Hne : is_empty (relevant_chunks context_chunks) = false).
  { rewrite relevant_chunks_cases.
    destruct (filter relevant context_chunks); [|reflexivity].
    destruct context_chunks; [congruence|reflexivity]. }
  now rewrite Hne.
Qed.

(** C8, as the code has it.  A result qualifies when its relevance is
    above 0.3, the test being made in the precision of the score.  The
    context is made of the first three qualifying results, in order;
    when none qualifies, of the first three results as they came. *)
Theorem prompt_context_chunks (context_chunks : list result) :
  (forall c,
      (forall v, relevance_score c = Float32 v ->
                 (relevant c = true
                  <-> SFltb (S754_finite false 10066330 (-25)) v = true))
      /\ (forall v, relevance_score c = Float v ->
                    (relevant c = true
                     <-> SFltb (S754_finite false 5404319552844595 (-54)) v
                         = true)))
  /\ (filter relevant context_chunks <> [] ->
      prompt_chunks context_chunks
      = firstn 3 (filter relevant context_chunks))
  /\ (filter relevant context_chunks = [] ->
      prompt_chunks context_chunks = firstn 3 context_chunks)
  /\ (context_chunks <> [] ->
      context context_chunks
      = join (nl ++ nl) (context_parts 0 (prompt_chunks context_chunks))).
Proof.
  split; [exact relevant_iff|].
  split; [|split].
  - intros H. rewrite prompt_chunks_firstn, relevant_chunks_cases.
    now destruct (filter relevant context_chunks).
  - intros H. rewrite prompt_chunks_firstn, relevant_chunks_cases, H.
    now rewrite firstn_firstn.
  - apply context_of_prompt_chunks.
Qed.

Lemma prompt_context_chunks_witness :
  prompt_chunks four_hits = firstn 3 four_hits
  /\ context four_hits
     = join (nl ++ nl) (context_parts 0 (firstn 3 four_hits)).
Proof.
  destruct (prompt_context_chunks four_hits) as (_ & Hq & _ & Hc).
  split.
  - apply Hq. discriminate.
  - rewrite Hc by discriminate. rewrite Hq by discriminate. reflexivity.
Defined.

(** C8 as stated does not hold: four results qualify and only three of
    them make the context. *)
Lemma four_qualify_three_used :
  filter relevant four_hits = four_hits
  /\ prompt_chunks four_hits <> filter relevant four_hits.
Proof.
  split; [reflexivity|]. intros H.
  apply (f_equal (@List.length _)) in H. vm_compute in H. discriminate H.
Qed.

(** C10.  The loop that builds the context visits at most three chunks,
    the first three of the selected ones, and the context of the prompt
    is made of exactly those, one part each; the prompt is the one built
    from those chunks alone; and with more than three qualifying results
    exactly the first three of them are visited: the context is their
    three texts, numbered 1 to 3, and nothing of the fourth or of any
    later result. *)
Theorem prompt_at_most_three (query : str) (context_chunks : list result) :
  (length (prompt_chunks context_chunks) <= 3)%nat
  /\ length (context_parts 0 (prompt_chunks context_chunks))
     = length (prompt_chunks context_chunks)
  /\ create_conversational_prompt query (prompt_chunks context_chunks)
     = create_conversational_prompt query context_chunks
  /\ ((3 < length (filter relevant context_chunks))%nat ->
      prompt_chunks context_chunks
      = firstn 3 (filter relevant context_chunks)
      /\ length (prompt_chunks context_chunks) = 3%nat)
  /\ (context_chunks <> [] ->
      context context_chunks
      = join (nl ++ nl) (context_parts 0 (prompt_chunks context_chunks)))
  /\ (forall c1 c2 c3 c4 rest,
        filter relevant context_chunks = c1 :: c2 :: c3 :: c4 :: rest ->
        context context_chunks
        = lit "Information 1: " ++ text c1 ++ nl ++ nl
          ++ lit "Information 2: " ++ text c2 ++ nl ++ nl
          ++ lit "Information 3: " ++ text c3).
Proof.
  split; [|split; [|split; [|split; [|split]]]].
  - rewrite prompt_chunks_firstn. rewrite length_firstn. lia.
  - generalize 0%nat. induction (prompt_chunks context_chunks) as [|c l IH];
      intros i; simpl; [reflexivity|]. now rewrite IH.
  - unfold create_conversational_prompt. now rewrite context_fixed.
  - intros H. rewrite prompt_chunks_firstn, relevant_chunks_cases.
    destruct (filter relevant context_chunks) as [|c l] eqn:E;
      [simpl in H; lia|].
    split; [reflexivity|]. rewrite length_firstn. lia.
  - apply context_of_prompt_chunks.
  - intros c1 c2 c3 c4 rest H.
    rewrite context_of_prompt_chunks
      by (intros ->; discriminate H).
    rewrite prompt_chunks_firstn, relevant_chunks_cases, H.
    cbn [firstn context_parts join].
    change (decimal (0 + 1)) with (lit "1").
    change (decimal (1 + 1)) with (lit "2").
    change (decimal (2 + 1)) with (lit "3").
    rewrite <- !app_assoc. reflexivity.
Qed.

Lemma prompt_at_most_three_witness :
  (prompt_chunks four_hits = firstn 3 (filter relevant four_hits)
   /\ length (prompt_chunks four_hits) = 3%nat)
  /\ context four_hits
     = lit "Information 1: 0" ++ nl ++ nl
       ++ lit "Information 2: 1" ++ nl ++ nl
       ++ lit "Information 3: 2".
Proof.
  destruct (prompt_at_most_three [] four_hits)
    as (_ & _ & _ & Hfirst & _ & Hcontext).
  split.
  - apply Hfirst. vm_compute. lia.
  - rewrite (Hcontext (half_hit 0) (half_hit 1) (half_hit 2) (half_hit 3)
               [] eq_refl).
    reflexivity.
Defined.

End PromptProofs.

(* ================================================================== *)
(** * Further properties of the chunker *)
(* ================================================================== *)

Module ChunkerMore.
Import Py PyFacts Preprocess Inputs Notions ChunkerProofs.

(** ** Trimming and slicing give substrings *)

Lemma lstrip_decompose (s : str) : exists pre, s = pre ++ lstrip s.
Proof.
  induction s as [|c s [pre IH]]; [now exists []|].
  simpl. destruct (isspace c); [|now exists []].
  exists (c :: pre). simpl. now rewrite <- IH.
Qed.

Lemma lstrip_head (s : str) (c : char) (rest : str) :
  lstrip s = c :: rest -> isspace c = false.
Proof.
  induction s as [|a s IH]; simpl; [discriminate|].
  destruct (isspace a) eqn:E; [exact IH|].
  intros H. inversion H. now subst.
Qed.

Lemma rstrip_decompose (s : str) : exists post, s = rstrip s ++ post.
Proof.
  unfold rstrip. destruct (lstrip_decompose (rev s)) as [pre H].
  exists (rev pre). rewrite <- rev_app_distr, <- H. now rewrite rev_involutive.
Qed.

Lemma rstrip_last (s front : str) (c : char) :
  rstrip s = front ++ [c] -> isspace c = false.
Proof.
  unfold rstrip. intros H. apply (f_equal (@rev _)) in H.
  rewrite rev_involutive, rev_app_distr in H. simpl in H.
  now apply lstrip_head in H.
Qed.

Lemma strip_substring (s : str) : substring (strip s) s.
Proof.
  unfold strip. destruct (lstrip_decompose s) as [pre Hpre].
  destruct (rstrip_decompose (lstrip s)) as [post Hpost].
  exists pre, post. now rewrite <- Hpost.
Qed.

Lemma strip_trimmed (s : str) : trimmed (strip s).
Proof.
  unfold strip. split.
  - intros c rest H. destruct (rstrip_decompose (lstrip s)) as [post Hpost].
    rewrite H in Hpost. simpl in Hpost. now apply lstrip_head in Hpost.
  - intros front c H. now apply rstrip_last in H.
Qed.

Lemma slice_substring {A} (l : list A) (a b : Z) :
  exists pre post, l = pre ++ slice l a b ++ post.
Proof.
  unfold slice.
  set (m := Z.to_nat (adjust (len l) a)).
  set (n := Z.to_nat (adjust (len l) b - adjust (len l) a)).
  exists (firstn m l), (skipn n (skipn m l)).
  now rewrite (firstn_skipn n), (firstn_skipn m).
Qed.

Lemma substring_trans (a b c : str) :
  substring a b -> substring b c -> substring a c.
Proof.
  intros (p1 & q1 & ->) (p2 & q2 & ->).
  exists (p2 ++ p1), (q1 ++ q2). now rewrite <- !app_assoc.
Qed.

Lemma substring_len (a b : str) : substring a b -> len a <= len b.
Proof.
  intros (p & q & ->). unfold len. rewrite !length_app. lia.
Qed.

Lemma window_text_substring (content : str) (w : Z * Z) :
  substring (window_text content w) content.
Proof.
  unfold window_text.
  apply substring_trans with (slice content (fst w) (snd w)).
  - apply strip_substring.
  - apply slice_substring.
Qed.

(** What the loop keeps comes from the texts it was given. *)
Lemma fold_keep_in (texts : list str) :
  forall acc c, In c (fold_left keep texts acc) -> In c acc \/ In c texts.
Proof.
  induction texts as [|t texts IH]; intros acc c H; simpl in *; [now left|].
  apply IH in H. destruct H as [H|H]; [|now right; right].
  unfold keep in H. destruct t as [|a t]; [now left|].
  destruct (100 <? len (a :: t)); [|now left].
  apply in_app_or in H. destruct H as [H|[H|[]]]; [now left|right; now left].
Qed.

Lemma chunk_of_window (content : str) (ws : list (Z * Z)) (chunk : str) :
  In chunk (emitted content ws) ->
  exists w, In w ws /\ chunk = window_text content w.
Proof.
  unfold emitted. intros H. apply fold_keep_in in H.
  destruct H as [[]|H]. apply in_map_iff in H.
  destruct H as (w & Hw & Hin). now exists w.
Qed.

(** X1.  Whatever the parameters, every chunk the call returns is a run
    of consecutive characters of the content and neither starts nor ends
    with whitespace. *)
Theorem chunks_are_trimmed_substrings (fuel : nat) (content : str)
  (chunk_size overlap : Z) (chunks : list str) :
  smart_chunking fuel content chunk_size overlap = Some (Ok chunks) ->
  Forall (fun chunk => substring chunk content /\ trimmed chunk) chunks.
Proof.
  intros H. unfold smart_chunking in H.
  destruct (loop_windows content chunk_size overlap fuel 0 [] chunks H)
    as (ws & _ & Hout & _).
  apply Forall_forall. intros chunk Hin.
  rewrite Hout in Hin. apply (chunk_of_window content ws) in Hin.
  destruct Hin as (w & _ & ->). split.
  - apply window_text_substring.
  - apply strip_trimmed.
Qed.

Lemma chunks_are_trimmed_substrings_witness :
  Forall (fun chunk => substring chunk space_at_cut /\ trimmed chunk)
    space_at_cut_chunks.
Proof.
  apply (chunks_are_trimmed_substrings 4 space_at_cut 600 150).
  vm_compute. reflexivity.
Defined.

(** X2.  A content of at most 100 characters gives no chunk: every
    result the call returns is empty, and with advancing parameters the
    call does return. *)
Theorem short_content_no_chunk (content : str) (chunk_size overlap : Z) :
  len content <= 100 ->
  (forall fuel chunks,
      smart_chunking fuel content chunk_size overlap = Some (Ok chunks) ->
      chunks = [])
  /\ (advancing chunk_size overlap ->
      exists fuel,
        smart_chunking fuel content chunk_size overlap = Some (Ok [])).
Proof.
  intros Hshort.
  assert (Hnone : forall fuel chunks,
             smart_chunking fuel content chunk_size overlap
             = Some (Ok chunks) -> chunks = []).
  { intros fuel chunks H. destruct chunks as [|chunk chunks]; [reflexivity|].
    exfalso. unfold smart_chunking in H.
    destruct (loop_windows content chunk_size overlap fuel 0 [] _ H)
      as (ws & _ & Hout & _).
    assert (Hlong : Forall long (chunk :: chunks)).
    { rewrite Hout. apply fold_keep_long. constructor. }
    assert (Hin : In chunk (emitted content ws)).
    { unfold emitted. rewrite <- Hout. now left. }
    apply chunk_of_window in Hin. destruct Hin as (w & _ & Hw).
    pose proof (substring_len _ _ (window_text_substring content w)) as Hle.
    inversion Hlong as [|? ? Hl _]. unfold long in Hl. rewrite Hw in Hl.
    lia. }
  split; [exact Hnone|].
  intros Hadv.
  destruct (smart_chunking_returns content chunk_size overlap
              (S (Z.to_nat (len content))) Hadv ltac:(lia)) as [chunks H].
  exists (S (Z.to_nat (len content))). now rewrite (Hnone _ _ H) in H.
Qed.

Lemma short_content_no_chunk_witness :
  smart_chunking 2 (repeat 65%N 50) 600 150 = Some (Ok []).
Proof.
  destruct (smart_chunking 2 (repeat 65%N 50) 600 150) as [[chunks|e]|]
    eqn:E; try (vm_compute in E; discriminate E).
  now rewrite (proj1 (short_content_no_chunk (repeat 65%N 50) 600 150
                        ltac:(vm_compute; discriminate)) 2%nat chunks E).
Defined.

(** ** Lengths *)

Lemma len_slice_bound {A} (l : list A) (a b : Z) :
  0 <= a <= b -> len (slice l a b) <= b - a.
Proof.
  intros H. unfold slice. rewrite !adjust_nonneg by lia.
  unfold len. rewrite length_firstn. lia.
Qed.

Lemma slice_all {A} (l : list A) (b : Z) : len l <= b -> slice l 0 b = l.
Proof.
  intros H. pose proof (len_nonneg l). unfold slice.
  rewrite !adjust_nonneg by lia.
  replace (Z.min 0 (len l)) with 0 by lia.
  replace (Z.min b (len l)) with (len l) by lia.
  simpl skipn. apply firstn_all2. unfold len. lia.
Qed.

(** With advancing parameters every window starts inside the content's
    index range and is at most [chunk_size + 1] long. *)
Lemma chained_bounds (content : str) (chunk_size overlap : Z) :
  advancing chunk_size overlap ->
  forall ws start,
    0 <= start ->
    chained content chunk_size overlap start ws ->
    Forall (fun w => 0 <= fst w /\ fst w < snd w <= fst w + chunk_size + 1)
      ws.
Proof.
  intros Hadv. induction ws as [|[s e] ws IH]; intros start Hs Hch;
    [constructor|].
  destruct Hch as (-> & Hcut & Hch).
  destruct (advancing_step content chunk_size overlap start e Hadv Hs Hcut)
    as [Hstep _].
  destruct (cut_point_bounds content chunk_size start Hs) as (e' & He' & Hb).
  rewrite Hcut in He'. inversion He'; subst e'.
  destruct Hadv as [Ho Hw].
  constructor; [simpl; lia|]. apply (IH (e - overlap)); [lia|exact Hch].
Qed.

(** X3.  With advancing parameters every chunk has more than 100 and at
    most [chunk_size + 1] characters (one more than [chunk_size] when
    the character at the proposed end is a sentence end); hence a
    [chunk_size] below 100 gives no chunk at all. *)
Theorem chunk_length_bounds (fuel : nat) (content : str)
  (chunk_size overlap : Z) (chunks : list str) :
  advancing chunk_size overlap ->
  smart_chunking fuel content chunk_size overlap = Some (Ok chunks) ->
  Forall (fun chunk => 100 < len chunk <= chunk_size + 1) chunks
  /\ (chunk_size < 100 -> chunks = []).
Proof.
  intros Hadv H. unfold smart_chunking in H.
  destruct (loop_windows content chunk_size overlap fuel 0 [] chunks H)
    as (ws & _ & Hout & Hch).
  assert (Hall : Forall (fun chunk => 100 < len chunk <= chunk_size + 1)
                   chunks).
  { pose proof (fold_keep_long (map (window_text content) ws) []
                  (Forall_nil _)) as Hlong.
    rewrite <- Hout in Hlong. rewrite Forall_forall in *.
    intros chunk Hin. split; [apply (Hlong chunk Hin)|].
    rewrite Hout in Hin. apply (chunk_of_window content ws) in Hin.
    destruct Hin as ([s e] & Hw & ->).
    pose proof (chained_bounds content chunk_size overlap Hadv ws 0
                  ltac:(lia) Hch) as Hb.
    rewrite Forall_forall in Hb. specialize (Hb (s, e) Hw). simpl in Hb.
    unfold window_text. simpl.
    pose proof (substring_len _ _ (strip_substring (slice content s e))).
    pose proof (len_slice_bound content s e ltac:(lia)). lia. }
  split; [exact Hall|]. intros Hsmall.
  destruct chunks as [|chunk chunks]; [reflexivity|].
  inversion Hall as [|? ? Hc _]. lia.
Qed.

Lemma chunk_length_bounds_witness :
  Forall (fun chunk => 100 < len chunk <= 600 + 1) space_at_cut_chunks.
Proof.
  apply (chunk_length_bounds 4 space_at_cut 600 150 space_at_cut_chunks).
  - unfold advancing. lia.
  - vm_compute. reflexivity.
Defined.

(** The bound is reached: a sentence end at index 600 gives a first
    chunk of 601 characters. *)
Example chunk_of_601_characters :
  option_map (fun r => match r with
                       | Ok chunks => map (@List.length _) chunks
                       | Raise _ => []
                       end)
    (smart_chunking 3 (repeat 97%N 600 ++ [46%N] ++ repeat 97%N 399) 600 150)
  = Some [601; 549]%nat.
Proof. vm_compute. reflexivity. Qed.

(** X4.  A non-empty content of at most [chunk_size - overlap]
    characters is one window: the call returns at the first iteration
    with the trimmed content as only chunk, or with nothing when the
    trimmed content has at most 100 characters. *)
Theorem single_window (fuel : nat) (content : str) (chunk_size overlap : Z) :
  0 <= overlap ->
  0 < len content <= chunk_size - overlap ->
  smart_chunking (S fuel) content chunk_size overlap
  = Some (Ok (keep [] (strip content))).
Proof.
  intros Ho [Hpos Hle]. unfold smart_chunking. cbn [smart_chunking_loop].
  destruct (Z.ltb_spec 0 (len content)) as [_|]; [|lia].
  unfold cut_point. cbv zeta.
  destruct (Z.ltb_spec (0 + chunk_size) (len content)) as [|_]; [lia|].
  rewrite slice_all by lia.
  destruct (Z.leb_spec (len content) (0 + chunk_size - overlap)) as [_|];
    [reflexivity|lia].
Qed.

Lemma single_window_witness :
  smart_chunking 1 short_content 600 150 = Some (Ok [short_content]).
Proof.
  rewrite (single_window 0 short_content 600 150);
    [reflexivity|lia|vm_compute; split; [reflexivity|discriminate]].
Defined.

(** ** The windows leave no gap *)

Lemma windows_chained (content : str) (chunk_size overlap : Z) (fuel : nat) :
  forall start ws,
    windows_loop fuel content chunk_size overlap start = Some (Ok ws) ->
    chained content chunk_size overlap start ws.
Proof.
  induction fuel as [|fuel IH]; intros start ws H; [discriminate H|].
  simpl in H. destruct (start <? len content); [|now inversion H].
  destruct (cut_point content chunk_size start) as [e|x] eqn:Hcut;
    [|discriminate H].
  destruct (len content <=? e - overlap).
  - inversion H. simpl. now repeat split.
  - destruct (windows_loop fuel content chunk_size overlap (e - overlap))
      as [[ws'|x]|] eqn:Hw; try discriminate H.
    inversion H. simpl. repeat split; auto.
Qed.

Lemma windows_cover (content : str) (chunk_size overlap : Z) (fuel : nat) :
  0 <= overlap ->
  forall start ws,
    windows_loop fuel content chunk_size overlap start = Some (Ok ws) ->
    forall i, start <= i < len content ->
              exists s e, In (s, e) ws /\ s <= i < e.
Proof.
  intros Ho. induction fuel as [|fuel IH]; intros start ws H i Hi;
    [discriminate H|].
  simpl in H. destruct (Z.ltb_spec start (len content)) as [_|]; [|lia].
  destruct (cut_point content chunk_size start) as [e|x] eqn:Hcut;
    [|discriminate H].
  destruct (Z.leb_spec (len content) (e - overlap)) as [Hend|Hmore].
  - inversion H. exists start, e. split; [now left|lia].
  - destruct (windows_loop fuel content chunk_size overlap (e - overlap))
      as [[ws'|x]|] eqn:Hw; try discriminate H.
    inversion H. destruct (Z.lt_ge_cases i e) as [Hlt|Hge].
    + exists start, e. split; [now left|lia].
    + destruct (IH (e - overlap) ws' Hw i ltac:(lia)) as (s & e' & Hin & Hr).
      exists s, e'. split; [now right|exact Hr].
Qed.

(** X5.  With advancing parameters the windows whose trimmed texts are
    the chunks leave no gap: every window starts at a non-negative index
    and is not empty, and every index of the content lies in one of
    them. *)
Theorem windows_cover_content (fuel : nat) (content : str)
  (chunk_size overlap : Z) (chunks : list str) :
  advancing chunk_size overlap ->
  smart_chunking fuel content chunk_size overlap = Some (Ok chunks) ->
  exists ws,
    windows fuel content chunk_size overlap = Some (Ok ws)
    /\ chunks = emitted content ws
    /\ Forall (fun w => 0 <= fst w < snd w) ws
    /\ forall i, 0 <= i < len content ->
                 exists s e, In (s, e) ws /\ 0 <= s <= i /\ i < e.
Proof.
  intros Hadv H. unfold smart_chunking in H.
  destruct (loop_windows content chunk_size overlap fuel 0 [] chunks H)
    as (ws & Hw & Hout & Hch).
  pose proof (chained_bounds content chunk_size overlap Hadv ws 0
                ltac:(lia) Hch) as Hb.
  exists ws. split; [exact Hw|]. split; [exact Hout|]. split.
  - eapply Forall_impl; [|exact Hb]. intros w Hw'. simpl in Hw'. lia.
  - intros i Hi.
    destruct (windows_cover content chunk_size overlap fuel
                (proj1 (proj1 Hadv)) 0 ws Hw i Hi) as (s & e & Hin & Hr).
    exists s, e. split; [exact Hin|].
    rewrite Forall_forall in Hb. specialize (Hb (s, e) Hin). simpl in Hb.
    lia.
Qed.

Lemma windows_cover_content_witness :
  exists ws,
    windows 4 space_at_cut 600 150 = Some (Ok ws)
    /\ space_at_cut_chunks = emitted space_at_cut ws
    /\ Forall (fun w => 0 <= fst w < snd w) ws
    /\ forall i, 0 <= i < len space_at_cut ->
                 exists s e, In (s, e) ws /\ 0 <= s <= i /\ i < e.
Proof.
  apply (windows_cover_content 4 space_at_cut 600 150 space_at_cut_chunks).
  - unfold advancing. lia.
  - vm_compute. reflexivity.
Defined.

End ChunkerMore.

(* ================================================================== *)
(** * Text cleaning *)
(* ================================================================== *)

Module CleanTextProofs.
Import Py PyFacts Preprocess Inputs Notions ChunkerMore.

(** ** Whitespace runs *)

Lemma sub_ws_runs_in (s : str) :
  forall in_run c,
    In c (sub_ws_runs in_run s) ->
    (In c s /\ isspace c = false) \/ c = 32%N.
Proof.
  induction s as [|a s IH]; intros in_run c H; simpl in H; [destruct H|].
  destruct (isspace a) eqn:E.
  - destruct in_run.
    + apply IH in H. destruct H as [[H1 H2]|H]; [left|now right].
      split; [now right|exact H2].
    + destruct H as [H|H]; [now right|].
      apply IH in H. destruct H as [[H1 H2]|H]; [left|now right].
      split; [now right|exact H2].
  - destruct H as [H|H].
    + subst c. left. split; [now left|exact E].
    + apply IH in H. destruct H as [[H1 H2]|H]; [left|now right].
      split; [now right|exact H2].
Qed.

Lemma sub_ws_runs_length (s : str) :
  forall in_run, (length (sub_ws_runs in_run s) <= length s)%nat.
Proof.
  induction s as [|a s IH]; intros in_run; simpl; [lia|].
  destruct (isspace a); [destruct in_run|]; simpl.
  - specialize (IH true). lia.
  - specialize (IH true). lia.
  - specialize (IH false). lia.
Qed.

Lemma sub_ws_runs_idempotent (s : str) :
  forall in_run,
    sub_ws_runs in_run (sub_ws_runs in_run s) = sub_ws_runs in_run s.
Proof.
  induction s as [|a s IH]; intros in_run; simpl; [reflexivity|].
  destruct (isspace a) eqn:E.
  - destruct in_run; [apply IH|].
    simpl. change (isspace 32%N) with true. cbn iota.
    f_equal. apply IH.
  - simpl. rewrite E. f_equal. apply IH.
Qed.

(** A final character that is not whitespace stays where it is. *)
Lemma sub_ws_runs_last (s : str) (x : char) :
  isspace x = false ->
  forall in_run,
    sub_ws_runs in_run (s ++ [x]) = sub_ws_runs in_run s ++ [x].
Proof.
  intros Hx. induction s as [|a s IH]; intros in_run; simpl.
  - now rewrite Hx.
  - destruct (isspace a); [destruct in_run|]; simpl; now rewrite IH.
Qed.

(** ** Trimmed texts *)

Lemma strip_of_trimmed (s : str) : trimmed s -> strip s = s.
Proof.
  intros [Hhead Hlast]. unfold strip.
  assert (Hl : lstrip s = s).
  { destruct s as [|c s]; [reflexivity|]. simpl.
    now rewrite (Hhead c s eq_refl). }
  rewrite Hl. unfold rstrip.
  destruct (rev s) as [|c r] eqn:E.
  - simpl. apply (f_equal (@rev _)) in E. now rewrite rev_involutive in E.
  - assert (Hs : s = rev r ++ [c]).
    { apply (f_equal (@rev _)) in E. now rewrite rev_involutive in E. }
    simpl. rewrite (Hlast (rev r) c Hs). now rewrite Hs.
Qed.

Lemma normalize_ws_trimmed (s : str) : trimmed (normalize_ws s).
Proof.
  unfold normalize_ws. destruct (strip_trimmed s) as [Hhead Hlast].
  split.
  - intros c rest H. destruct (strip s) as [|a t] eqn:E; [discriminate H|].
    simpl in H. rewrite (Hhead a t eq_refl) in H.
    inversion H. subst. now apply (Hhead c t).
  - intros front c H.
    destruct (exists_last (l := strip s)) as (t & x & E).
    { intros E. rewrite E in H. now destruct front. }
    rewrite E in H. pose proof (Hlast t x E) as Hx.
    rewrite (sub_ws_runs_last t x Hx) in H.
    apply app_inj_tail in H. destruct H as [_ ->]. exact Hx.
Qed.

Lemma strip_in (s : str) (c : char) : In c (strip s) -> In c s.
Proof.
  intros H. destruct (strip_substring s) as (pre & post & E).
  rewrite E. apply in_or_app. right. apply in_or_app. now left.
Qed.

Lemma strip_length (s : str) : (length (strip s) <= length s)%nat.
Proof.
  pose proof (substring_len _ _ (strip_substring s)). unfold len in *. lia.
Qed.

Lemma normalize_ws_in (s : str) (c : char) :
  In c (normalize_ws s) -> (In c s /\ isspace c = false) \/ c = 32%N.
Proof.
  unfold normalize_ws. intros H. apply sub_ws_runs_in in H.
  destruct H as [[H1 H2]|H]; [left|now right].
  split; [now apply strip_in|exact H2].
Qed.

Lemma normalize_ws_idempotent (s : str) :
  normalize_ws (normalize_ws s) = normalize_ws s.
Proof.
  unfold normalize_ws at 1.
  rewrite (strip_of_trimmed _ (normalize_ws_trimmed s)).
  unfold normalize_ws. apply sub_ws_runs_idempotent.
Qed.

Section Allowed.

Variable isalnum : char -> bool.

Lemma space_allowed : allowed isalnum 32%N = true.
Proof. unfold allowed. change (isspace 32%N) with true. now rewrite orb_true_r. Qed.

Lemma normalize_ws_allowed (s : str) :
  Forall (fun c => allowed isalnum c = true) s ->
  Forall (fun c => allowed isalnum c = true) (normalize_ws s).
Proof.
  rewrite !Forall_forall. intros H c Hc.
  apply normalize_ws_in in Hc. destruct Hc as [[Hc _]| ->].
  - now apply H.
  - apply space_allowed.
Qed.

Lemma filter_allowed_all (s : str) :
  Forall (fun c => allowed isalnum c = true) s ->
  filter (allowed isalnum) s = s.
Proof.
  induction 1 as [|c s Hc _ IH]; simpl; [reflexivity|].
  now rewrite Hc, IH.
Qed.

Lemma clean_text_allowed (s : str) :
  Forall (fun c => allowed isalnum c = true) (clean_text isalnum s).
Proof.
  unfold clean_text. apply Forall_forall. intros c Hc.
  now apply filter_In in Hc.
Qed.

Lemma clean_text_of_allowed (s : str) :
  Forall (fun c => allowed isalnum c = true) s ->
  clean_text isalnum s = normalize_ws s.
Proof.
  intros H. unfold clean_text.
  now apply filter_allowed_all, normalize_ws_allowed.
Qed.

(** X6.  The cleaned text holds only characters of the allow-list, its
    only whitespace character is the space U+0020, and it is not longer
    than the text given. *)
Theorem clean_text_output (s : str) :
  Forall (fun c => allowed isalnum c = true) (clean_text isalnum s)
  /\ (forall c, In c (clean_text isalnum s) -> isspace c = true ->
                c = 32%N)
  /\ (length (clean_text isalnum s) <= length s)%nat.
Proof.
  split; [apply clean_text_allowed|]. split.
  - intros c Hc Hs. unfold clean_text in Hc. apply filter_In in Hc.
    destruct Hc as [Hc _]. apply normalize_ws_in in Hc.
    destruct Hc as [[_ Hn]|Hc]; [congruence|exact Hc].
  - unfold clean_text, normalize_ws.
    pose proof (filter_length_le (allowed isalnum)
                  (sub_ws_runs false (strip s))).
    pose proof (sub_ws_runs_length (strip s) false).
    pose proof (strip_length s). lia.
Qed.

(** X7.  Whitespace normalisation is idempotent.  On a text made of
    allowed characters cleaning is whitespace normalisation.  Cleaning
    twice gives a text that cleaning leaves as it is; once is not
    enough, since dropping a character can leave two spaces side by
    side. *)
Theorem clean_text_fixed_point (s : str) :
  normalize_ws (normalize_ws s) = normalize_ws s
  /\ (Forall (fun c => allowed isalnum c = true) s ->
      clean_text isalnum s = normalize_ws s)
  /\ clean_text isalnum (clean_text isalnum (clean_text isalnum s))
     = clean_text isalnum (clean_text isalnum s).
Proof.
  split; [apply normalize_ws_idempotent|].
  split; [apply clean_text_of_allowed|].
  pose proof (clean_text_allowed s) as H1.
  rewrite (clean_text_of_allowed (clean_text isalnum s) H1).
  rewrite clean_text_of_allowed by now apply normalize_ws_allowed.
  apply normalize_ws_idempotent.
Qed.

End Allowed.

Lemma clean_text_output_witness :
  (length (clean_text ascii_isalnum (lit " a @ b ")) <= 7)%nat.
Proof.
  exact (proj2 (proj2 (clean_text_output ascii_isalnum (lit " a @ b ")))).
Defined.

Lemma clean_text_fixed_point_witness :
  clean_text ascii_isalnum (lit "Hostel  fees: (2024) ")
  = normalize_ws (lit "Hostel  fees: (2024) ").
Proof.
  apply (proj1 (proj2 (clean_text_fixed_point ascii_isalnum
                         (lit "Hostel  fees: (2024) ")))).
  repeat constructor.
Defined.

(** One pass is not a fixed point. *)
Example clean_text_twice :
  clean_text ascii_isalnum (lit "a @ b") = lit "a  b"
  /\ clean_text ascii_isalnum (lit "a  b") = lit "a b".
Proof. split; reflexivity. Qed.

End CleanTextProofs.

(* ================================================================== *)
(** * Further properties of the build pipeline *)
(* ================================================================== *)

Module PipelineMore.
Import Py PyFacts Preprocess Inputs Notions ChunkerProofs PipelineProofs.
Import ChunkerMore.

Lemma append_chunks_eq (url section : pyval) (content : str) (i : nat)
  (content_chunks : list str) :
  forall st,
    append_chunks url section content i content_chunks st
    = (fst st ++ content_chunks,
       snd st ++ map (meta_of url section content i) content_chunks).
Proof.
  unfold append_chunks.
  induction content_chunks as [|chunk rest IH]; intros [chunks metadata];
    simpl.
  - now rewrite !app_nil_r.
  - rewrite IH. simpl. now rewrite <- !app_assoc.
Qed.

Lemma get_of_dict (entry : pyval) (key : str) (default v : pyval) :
  get entry key default = Ok v ->
  forall key' default', exists v', get entry key' default' = Ok v'.
Proof.
  intros H key' default'. destruct entry; try discriminate H.
  simpl. destruct (assoc key' items); eauto.
Qed.

Section Build.

Variable isalnum : char -> bool.
Variable fuel : nat.
Variables chunk_size overlap : Z.

(** What one record does to the two lists. *)
Lemma process_entry_cases (i : nat) (entry : pyval)
  (st : list str * list chunk_meta) :
  match process_entry isalnum fuel chunk_size overlap i entry st with
  | None => True
  | Some (Raise _) =>
      entry_chunks isalnum fuel chunk_size overlap entry = []
  | Some (Ok st') =>
      exists url section content,
        st' = (fst st
               ++ entry_chunks isalnum fuel chunk_size overlap entry,
               snd st
               ++ map (meta_of url section content i)
                    (entry_chunks isalnum fuel chunk_size overlap entry))
  end.
Proof.
  unfold process_entry, entry_chunks, once, done.
  destruct (bind (get entry (lit "content") (PStr []))
              (clean_text_val isalnum)) as [content|e] eqn:Hc;
    [|reflexivity].
  assert (Hdict : exists v, get entry (lit "content") (PStr []) = Ok v).
  { destruct (get entry (lit "content") (PStr [])) as [v|];
      [now exists v|discriminate Hc]. }
  destruct Hdict as [v Hv].
  destruct (get_of_dict entry _ _ v Hv (lit "url")
              (PStr (lit "https://kct.ac.in"))) as [url ->].
  destruct (get_of_dict entry _ _ v Hv (lit "section")
              (PStr (lit "General"))) as [section ->].
  cbn [rbind].
  destruct (len content <? 30).
  - exists url, section, content. simpl. rewrite !app_nil_r. now destruct st.
  - destruct (smart_chunking fuel content chunk_size overlap)
      as [[content_chunks|e]|]; cbn [rbind]; auto.
    exists url, section, content. apply append_chunks_eq.
Qed.

Lemma loop_chunks (rest : list pyval) :
  forall i st res,
    clean_and_chunk_loop isalnum fuel chunk_size overlap i rest st
    = Some res ->
    fst res
    = fst st
      ++ concat (map (entry_chunks isalnum fuel chunk_size overlap) rest).
Proof.
  induction rest as [|entry rest IH]; intros i st res H; simpl in H.
  - inversion H. simpl. now rewrite app_nil_r.
  - pose proof (process_entry_cases i entry st) as Hp.
    destruct (process_entry isalnum fuel chunk_size overlap i entry st)
      as [[st'|e]|]; [| |discriminate H].
    + destruct Hp as (url & section & content & ->).
      apply IH in H. rewrite H. simpl. now rewrite <- app_assoc.
    + apply IH in H. rewrite H. simpl. now rewrite Hp.
Qed.

Lemma in_record_order_next (i : nat) (metadata : list chunk_meta)
  (url section : pyval) (content : str) (added : list str) :
  in_record_order i metadata ->
  in_record_order (S i)
    (metadata ++ map (meta_of url section content i) added).
Proof.
  intros [Hlt Hs]. split.
  - apply Forall_app. split.
    + eapply Forall_impl; [|exact Hlt]. simpl. intros m Hm. lia.
    + apply Forall_forall. intros m Hm. apply in_map_iff in Hm.
      destruct Hm as (c & <- & _). simpl. lia.
  - rewrite map_app, map_map. simpl.
    induction metadata as [|m metadata IH]; simpl.
    + induction added as [|c added IHa]; simpl; constructor; auto.
      apply Forall_forall. intros x Hx. apply in_map_iff in Hx.
      destruct Hx as (c' & <- & _). lia.
    + inversion Hlt; subst. inversion Hs; subst.
      constructor; [now apply IH|].
      apply Forall_app. split; [assumption|].
      apply Forall_forall. intros x Hx. apply in_map_iff in Hx.
      destruct Hx as (c' & <- & _). lia.
Qed.

Lemma in_record_order_weaken (i : nat) (metadata : list chunk_meta) :
  in_record_order i metadata -> in_record_order (S i) metadata.
Proof.
  intros [Hlt Hs]. split; [|exact Hs].
  eapply Forall_impl; [|exact Hlt]. simpl. intros m Hm. lia.
Qed.

Lemma loop_record_order (rest : list pyval) :
  forall i st res,
    in_record_order i (snd st) ->
    clean_and_chunk_loop isalnum fuel chunk_size overlap i rest st
    = Some res ->
    in_record_order (i + length rest) (snd res).
Proof.
  induction rest as [|entry rest IH]; intros i st res Hst H; simpl in H.
  - inversion H. subst. now rewrite Nat.add_0_r.
  - simpl length. replace (i + S (length rest))%nat
      with (S i + length rest)%nat by lia.
    pose proof (process_entry_cases i entry st) as Hp.
    destruct (process_entry isalnum fuel chunk_size overlap i entry st)
      as [[st'|e]|]; [| |discriminate H].
    + destruct Hp as (url & section & content & ->).
      eapply IH; [|exact H]. simpl.
      now apply in_record_order_next.
    + apply (IH (S i) st res); [|exact H].
      now apply in_record_order_weaken.
Qed.

End Build.

(** X8.  The chunk list of the build is the concatenation, in record
    order, of the chunk lists of the records; a record that is not a
    dict, whose content is not a string, whose cleaned content has fewer
    than 30 characters or on which the chunker raises contributes
    nothing and does not stop the build. *)
Theorem clean_and_chunk_concat (isalnum : char -> bool) (fuel : nat)
  (data : list pyval) (chunk_size overlap : Z)
  (chunks : list str) (metadata : list chunk_meta) :
  clean_and_chunk isalnum fuel data chunk_size overlap
  = Some (chunks, metadata) ->
  chunks = concat (map (entry_chunks isalnum fuel chunk_size overlap) data).
Proof.
  intros H. unfold clean_and_chunk in H.
  now apply loop_chunks in H.
Qed.

Lemma clean_and_chunk_concat_witness :
  sample_chunks = concat (map (entry_chunks ascii_isalnum 3 600 150)
                            sample_data).
Proof.
  apply (clean_and_chunk_concat ascii_isalnum 3 sample_data 600 150
           sample_chunks sample_metadata).
  vm_compute. reflexivity.
Defined.

(** X9.  The metadata list of the build is in record order: the
    [source_entry] values never decrease along the list and each is a
    position of the record list. *)
Theorem metadata_in_record_order (isalnum : char -> bool) (fuel : nat)
  (data : list pyval) (chunk_size overlap : Z)
  (chunks : list str) (metadata : list chunk_meta) :
  clean_and_chunk isalnum fuel data chunk_size overlap
  = Some (chunks, metadata) ->
  StronglySorted le (map source_entry metadata)
  /\ Forall (fun m => (source_entry m < length data)%nat) metadata.
Proof.
  intros H. unfold clean_and_chunk in H.
  apply loop_record_order in H.
  - destruct H as [Hlt Hs]. now split.
  - split; constructor.
Qed.

Lemma metadata_in_record_order_witness :
  StronglySorted le (map source_entry sample_metadata)
  /\ Forall (fun m => (source_entry m < length sample_data)%nat)
       sample_metadata.
Proof.
  apply (metadata_in_record_order ascii_isalnum 3 sample_data 600 150
           sample_chunks sample_metadata).
  vm_compute. reflexivity.
Defined.

Lemma preview_length (content : str) : len (preview content) <= 153.
Proof.
  unfold preview. destruct (Z.ltb_spec 150 (len content)) as [Hl|Hs];
    [|lia].
  unfold len. rewrite length_app.
  pose proof (len_slice_bound content 0 150 ltac:(lia)) as Hb.
  unfold len in Hb. simpl length. lia.
Qed.

Lemma Forall2_both {A B} (R : A -> B -> Prop) (P : A -> Prop)
  (Q : B -> Prop) (l1 : list A) (l2 : list B) :
  (forall a b, R a b -> P a /\ Q b) ->
  Forall2 R l1 l2 -> Forall P l1 /\ Forall Q l2.
Proof.
  intros HR. induction 1 as [|a b l1 l2 Hab _ [IH1 IH2]].
  - split; constructor.
  - destruct (HR a b Hab). split; constructor; auto.
Qed.

(** X10.  In the output of the build every chunk has more than 100
    characters, every [content_length] is above 100, and every
    [original_content] preview has at most 153 characters. *)
Theorem build_sizes (isalnum : char -> bool) (fuel : nat)
  (data : list pyval) (chunk_size overlap : Z)
  (chunks : list str) (metadata : list chunk_meta) :
  clean_and_chunk isalnum fuel data chunk_size overlap
  = Some (chunks, metadata) ->
  Forall long chunks
  /\ Forall (fun m => 100 < content_length m
                      /\ len (original_content m) <= 153) metadata.
Proof.
  intros H.
  assert (Hal : aligned_with isalnum fuel data chunk_size overlap
                  (chunks, metadata)).
  { apply (loop_aligned isalnum fuel data chunk_size overlap data 0
             ([], []) (chunks, metadata)); auto. constructor. }
  unfold aligned_with in Hal. simpl in Hal.
  refine (Forall2_both _ _ _ _ _ _ Hal).
  intros chunk m (Hlen & entry & content & content_chunks & _ & _ & _ & _
                  & Hprev & Hsc & Hin).
  assert (Hlong : long chunk).
  { unfold smart_chunking in Hsc.
    destruct (loop_windows content chunk_size overlap fuel 0 []
                content_chunks Hsc) as (ws & _ & Hout & _).
    pose proof (fold_keep_long (map (window_text content) ws) []
                  (Forall_nil _)) as Hl.
    rewrite <- Hout in Hl. rewrite Forall_forall in Hl. now apply Hl. }
  split; [exact Hlong|]. rewrite Hlen, Hprev. split; [exact Hlong|].
  apply preview_length.
Qed.

Lemma build_sizes_witness :
  Forall long sample_chunks
  /\ Forall (fun m => 100 < content_length m
                      /\ len (original_content m) <= 153) sample_metadata.
Proof.
  apply (build_sizes ascii_isalnum 3 sample_data 600 150).
  vm_compute. reflexivity.
Defined.

End PipelineMore.

(* ================================================================== *)
(** * Further properties of initialisation and search *)
(* ================================================================== *)

Module SearchMore.
Import Py PyFacts QueryBot Inputs Notions RankingProofs SearchProofs.
Import ChunkerMore.

(** ** The assembly loop *)

Lemma item_ok {A} (l : list A) (i : Z) (a : A) :
  item l i = Ok a <-> Py.index l i = Some a.
Proof.
  unfold item. destruct (Py.index l i); split; intros H;
    inversion H; reflexivity.
Qed.

Lemma from_hit_more (chunks : list str) (metadata : list chunk_meta)
  (h : spec_float * Z) (hits : list (spec_float * Z)) (x : result) :
  from_hit chunks metadata hits x -> from_hit chunks metadata (h :: hits) x.
Proof.
  intros (d & idx & m & Hin & H). exists d, idx, m.
  split; [now right|exact H].
Qed.

Lemma assemble_from_hits (chunks : list str) (metadata : list chunk_meta)
  (hits : list (spec_float * Z)) :
  forall acc out,
    assemble chunks metadata hits acc = Ok out ->
    exists new,
      out = acc ++ new
      /\ Forall (from_hit chunks metadata hits) new
      /\ (length new <= length hits)%nat.
Proof.
  induction hits as [|[d idx] hits IH]; intros acc out H; simpl in H.
  - inversion H. exists []. rewrite app_nil_r. repeat split; auto.
  - destruct (idx <? len chunks) eqn:Hc, (idx <? len metadata) eqn:Hm;
      simpl in H.
    2-4: destruct (IH acc out H) as (new & -> & Hall & Hlen);
         exists new; repeat split; [|simpl; lia];
         eapply Forall_impl; [|exact Hall]; intros x; apply from_hit_more.
    destruct (item chunks idx) as [chunk_text|] eqn:Hi; [|discriminate H].
    destruct (item metadata idx) as [m|] eqn:Him; [|discriminate H].
    cbn [bind] in H.
    destruct (IH _ out H) as (new & -> & Hall & Hlen).
    eexists (_ :: new). split; [now rewrite <- app_assoc|].
    split; [|simpl; lia]. constructor.
    + exists d, idx, m. simpl. apply item_ok in Hi, Him.
      apply Z.ltb_lt in Hc, Hm. repeat split; auto; now left.
    + eapply Forall_impl; [|exact Hall]. intros x; apply from_hit_more.
Qed.

(** An ordinal below [-len(chunks)] raises in the loop. *)
Lemma assemble_bad_ordinal (chunks : list str) (metadata : list chunk_meta)
  (hits : list (spec_float * Z)) (d : spec_float) (idx : Z) :
  In (d, idx) hits -> idx < - len chunks ->
  forall acc, exists e, assemble chunks metadata hits acc = Raise e.
Proof.
  intros Hin Hlow. pose proof (len_nonneg chunks) as Hn.
  pose proof (len_nonneg metadata) as Hn'.
  induction hits as [|[d' idx'] hits IH]; intros acc; [destruct Hin|].
  simpl. destruct Hin as [Heq|Hin].
  - inversion Heq; subst d' idx'.
    destruct (Z.ltb_spec idx (len chunks)) as [_|]; [|lia].
    destruct (Z.ltb_spec idx (len metadata)) as [_|]; [|lia].
    simpl. unfold item at 1, Py.index.
    destruct (Z.leb_spec 0 idx) as [|_]; [lia|].
    destruct (Z.leb_spec (- len chunks) idx) as [|_]; [lia|].
    now eexists.
  - destruct ((idx' <? len chunks) && (idx' <? len metadata));
      [|now apply IH].
    destruct (item chunks idx') as [t|]; [|now eexists].
    cbn [bind].
    destruct (if idx' <? len metadata
              then bind (item metadata idx') (fun m => Ok (Some m))
              else Ok None) as [cm|]; [|now eexists].
    cbn [bind]. now apply IH.
Qed.

Lemma index_last {A} (front : list A) (a : A) :
  Py.index (front ++ [a]) (-1) = Some a.
Proof.
  unfold Py.index. change (0 <=? -1) with false. cbv iota.
  assert (Hlen : len (front ++ [a]) = Z.of_nat (length front) + 1).
  { unfold len. rewrite length_app. simpl length. lia. }
  rewrite Hlen.
  destruct (Z.leb_spec (- (Z.of_nat (length front) + 1)) (-1)) as [_|];
    [|lia].
  replace (Z.to_nat (-1 + (Z.of_nat (length front) + 1)))
    with (length front) by lia.
  rewrite nth_error_app2 by lia. now rewrite Nat.sub_diag.
Qed.

Lemma rank_length_le (found : list result) (k : Z) :
  (length (rank found k) <= length found)%nat.
Proof.
  unfold rank. destruct (slice_prefix (sort_desc found) k) as (n & -> & _).
  rewrite length_firstn, <- (Permutation_length (sort_desc_perm found)). lia.
Qed.

(** X12.  The bound test of line 85 lets negative ordinals through.
    Ordinal -1 gives a result made of the last chunk and the last
    metadata entry; an ordinal below [-len(chunks)] anywhere in the
    answer of the index makes the loop raise. *)
Theorem negative_ordinals (chunks : list str) (metadata : list chunk_meta)
  (d : spec_float) (hits : list (spec_float * Z)) (acc : list result) :
  (forall front chunk_text mfront m,
      chunks = front ++ [chunk_text] ->
      metadata = mfront ++ [m] ->
      assemble chunks metadata ((d, -1) :: hits) acc
      = assemble chunks metadata hits (acc ++ [result_of chunk_text d m]))
  /\ (forall idx,
        In (d, idx) hits -> idx < - len chunks ->
        exists e, assemble chunks metadata hits acc = Raise e).
Proof.
  split.
  - intros front chunk_text mfront m Hc Hm. simpl.
    pose proof (len_nonneg chunks). pose proof (len_nonneg metadata).
    destruct (Z.ltb_spec (-1) (len chunks)) as [_|]; [|lia].
    destruct (Z.ltb_spec (-1) (len metadata)) as [_|]; [|lia].
    simpl. unfold item. rewrite Hc, Hm, !index_last. reflexivity.
  - intros idx Hin Hlow. now apply (assemble_bad_ordinal _ _ _ d idx).
Qed.

Lemma negative_ordinals_witness :
  assemble toy_chunks toy_metadata [(f32 1 2, -1)] []
  = Ok [result_of (decimal 9) (f32 1 2) (toy_meta 9)]
  /\ exists e,
      assemble toy_chunks toy_metadata [(f32 1 2, 5); (f32 1 2, -11)] []
      = Raise e.
Proof.
  split.
  - rewrite (proj1 (negative_ordinals toy_chunks toy_metadata (f32 1 2) [] [])
               (firstn 9 toy_chunks) (decimal 9)
               (firstn 9 toy_metadata) (toy_meta 9) eq_refl eq_refl).
    reflexivity.
  - apply (proj2 (negative_ordinals toy_chunks toy_metadata (f32 1 2)
                    [(f32 1 2, 5); (f32 1 2, -11)] []) (-11)).
    + right. now left.
    + vm_compute. reflexivity.
Defined.

(** ** The results kept are the best *)

Lemma sorted_split (l1 l2 : list result) :
  StronglySorted ge_key (l1 ++ l2) ->
  Forall (fun y => Forall (fun x => ge_key x y) l1) l2.
Proof.
  induction l1 as [|x l1 IH]; simpl; intros H.
  - apply Forall_forall. intros y _. constructor.
  - inversion H as [|? ? Hs Hx]; subst. specialize (IH Hs).
    apply Forall_app in Hx. destruct Hx as [_ Hx2].
    rewrite Forall_forall in *. intros y Hy. constructor.
    + now apply Hx2.
    + now apply IH.
Qed.

(** X13.  Lines 98 and 99 keep the best: the assembled results are,
    up to order, the returned ones followed by the dropped ones; when
    the scores are [float32] numbers, none NaN, no returned result has a
    lower score than a dropped one; and nothing is dropped when [k] is
    at least the number of assembled results. *)
Theorem rank_keeps_best (found : list result) (k : Z) :
  exists dropped,
    Permutation found (rank found k ++ dropped)
    /\ (Forall numeric found ->
        Forall (fun y => Forall (fun x => float_lt (key x) (key y) = false)
                           (rank found k))
          dropped)
    /\ (len found <= k -> dropped = []).
Proof.
  assert (Hlen : len (sort_desc found) = len found).
  { unfold len. now rewrite <- (Permutation_length (sort_desc_perm found)). }
  destruct (Z.le_gt_cases (len found) k) as [Hall|Hcut].
  - exists []. unfold rank. rewrite slice_all by lia.
    rewrite app_nil_r. split; [apply sort_desc_perm|].
    split; [constructor|reflexivity].
  - unfold rank.
    destruct (slice_prefix (sort_desc found) k) as (n & -> & _).
    exists (skipn n (sort_desc found)). rewrite firstn_skipn.
    split; [apply sort_desc_perm|]. split; [|lia].
    intros Hnum. apply sorted_split. rewrite firstn_skipn.
    now apply sort_desc_sorted.
Qed.

Section Search.

Variables Model Index Vec : Type.
Variable load_model : outcome Model.
Variable encode : Model -> list str -> outcome Vec.
Variable index_search : Index -> Vec -> Z -> outcome (list (spec_float * Z)).
Variable lower : str -> str.
Variable fs : files Index.

(** Where a non-empty answer of the search comes from. *)
Lemma search_results (query : str) (k : Z) (g : globals Model Index)
  (results : list result) :
  snd (enhanced_semantic_search load_model encode index_search lower fs
         query k g) = Ok results ->
  results = []
  \/ exists m ix v hits found,
      model (ready load_model fs g) = Some m
      /\ index (ready load_model fs g) = Some ix
      /\ encode m [anchor_query lower query] = Ok v
      /\ index_search ix v
           (Z.min (k * 2) (len (chunks (ready load_model fs g))))
         = Ok hits
      /\ assemble (chunks (ready load_model fs g))
           (metadata (ready load_model fs g)) hits [] = Ok found
      /\ results = rank found k.
Proof.
  rewrite search_unfold. cbv zeta.
  set (g1 := ready load_model fs g).
  destruct (is_empty (chunks g1) || is_empty (metadata g1)).
  { simpl. intros H. inversion H. now left. }
  destruct (snd (retrieve encode index_search lower query k g1))
    as [found|e] eqn:Hr; simpl; intros H; inversion H; [|now left].
  right.
  destruct (retrieve_ok _ _ _ encode index_search lower query k g1 found Hr)
    as (m & ix & v & hits & Hm & Hi & He & Hs & Ha).
  exists m, ix, v, hits, found. repeat split; auto.
Qed.

(** X11.  Every result of the search pairs the chunk and the metadata
    entry of one and the same ordinal, an ordinal the index returned for
    the anchored query when asked for [min(2k, len(chunks))] neighbours,
    and carries the distance of that hit; there are no more results than
    hits. *)
Theorem results_from_hits (query : str) (k : Z) (g : globals Model Index)
  (results : list result) :
  snd (enhanced_semantic_search load_model encode index_search lower fs
         query k g) = Ok results ->
  results = []
  \/ exists m ix v hits,
      model (ready load_model fs g) = Some m
      /\ index (ready load_model fs g) = Some ix
      /\ encode m [anchor_query lower query] = Ok v
      /\ index_search ix v
           (Z.min (k * 2) (len (chunks (ready load_model fs g))))
         = Ok hits
      /\ Forall (from_hit (chunks (ready load_model fs g))
                   (metadata (ready load_model fs g)) hits) results
      /\ (length results <= length hits)%nat.
Proof.
  intros H. destruct (search_results query k g results H)
    as [->|(m & ix & v & hits & found & Hm & Hi & He & Hs & Ha & ->)];
    [now left|right].
  exists m, ix, v, hits. repeat (split; [assumption|]).
  destruct (assemble_from_hits _ _ _ _ _ Ha) as (new & Hn & Hall & Hlen).
  simpl in Hn. subst new. split.
  - rewrite Forall_forall in *. intros x Hx.
    apply Hall, (rank_incl found k), Hx.
  - pose proof (rank_length_le found k). lia.
Qed.

(** X14.  One ordinal below [-len(chunks)] in the answer of the index
    costs the whole answer: the search returns no result. *)
Theorem bad_ordinal_empties_search (query : str) (k : Z)
  (g : globals Model Index) (m : Model) (ix : Index) (v : Vec)
  (hits : list (spec_float * Z)) (d : spec_float) (idx : Z) :
  model (ready load_model fs g) = Some m ->
  index (ready load_model fs g) = Some ix ->
  encode m [anchor_query lower query] = Ok v ->
  index_search ix v (Z.min (k * 2) (len (chunks (ready load_model fs g))))
  = Ok hits ->
  In (d, idx) hits ->
  idx < - len (chunks (ready load_model fs g)) ->
  snd (enhanced_semantic_search load_model encode index_search lower fs
         query k g) = Ok [].
Proof.
  intros Hm Hi He Hs Hin Hlow. rewrite search_unfold. cbv zeta.
  destruct (is_empty _ || is_empty _); [reflexivity|].
  unfold_retrieve. rewrite Hm, He, Hi, Hs. simpl.
  destruct (assemble_bad_ordinal _ (metadata (ready load_model fs g)) hits
              d idx Hin Hlow []) as [e ->].
  reflexivity.
Qed.

End Search.

(** Of the three results of [toy_search], [k = 2] keeps ordinals 9 and
    5 and drops one result, whose score is not above theirs. *)
Lemma rank_keeps_best_witness :
  rank toy_found 2 = toy_results
  /\ exists dropped,
      Permutation toy_found (toy_results ++ dropped)
      /\ length dropped = 1%nat
      /\ Forall (fun y => Forall (fun x => float_lt (key x) (key y) = false)
                            toy_results)
           dropped.
Proof.
  assert (Hr : rank toy_found 2 = toy_results) by (vm_compute; reflexivity).
  split; [exact Hr|].
  destruct (rank_keeps_best toy_found 2) as (dropped & Hp & Hbest & _).
  rewrite Hr in Hp, Hbest.
  exists dropped. split; [exact Hp|]. split.
  - apply Permutation_length in Hp. rewrite length_app in Hp.
    simpl in Hp. lia.
  - apply Hbest. repeat constructor.
Defined.

Lemma results_from_hits_witness :
  toy_results = []
  \/ exists m ix v hits,
      model (ready (Ok tt) no_files toy_loaded) = Some m
      /\ index (ready (Ok tt) no_files toy_loaded) = Some ix
      /\ toy_encode m [anchor_query ascii_lower (lit "hostel facilities")]
         = Ok v
      /\ toy_search ix v
           (Z.min (2 * 2) (len (chunks (ready (Ok tt) no_files toy_loaded))))
         = Ok hits
      /\ Forall (from_hit (chunks (ready (Ok tt) no_files toy_loaded))
                   (metadata (ready (Ok tt) no_files toy_loaded)) hits)
           toy_results
      /\ (length toy_results <= length hits)%nat.
Proof.
  apply (results_from_hits unit unit unit (Ok tt) toy_encode toy_search
           ascii_lower no_files (lit "hostel facilities") 2 toy_loaded
           toy_results).
  vm_compute. reflexivity.
Defined.

Lemma bad_ordinal_empties_search_witness :
  snd (enhanced_semantic_search (Ok tt) toy_encode bad_search ascii_lower
         no_files (lit "hostel facilities") 2 toy_loaded) = Ok [].
Proof.
  apply (bad_ordinal_empties_search unit unit unit (Ok tt) toy_encode
           bad_search ascii_lower no_files (lit "hostel facilities") 2
           toy_loaded tt tt tt [(f32 1 10, 5); (f32 1 2, -11)] (f32 1 2)
           (-11));
    try reflexivity.
  right. now left.
Defined.

(** X15.  Nearest is not always first.  The scores are computed in
    binary32, where the distances [1e-10] and [0] both give the score 1;
    the sort is stable, so the two results come in the order of the
    index answer: the farther hit, ordinal 9, before the nearer one,
    ordinal 5. *)
Theorem nearest_not_always_first :
  exists far near,
    snd (enhanced_semantic_search (Ok tt) toy_encode tie_search ascii_lower
           no_files (lit "hostel facilities") 2 toy_loaded)
    = Ok [far; near]
    /\ text far = lit "9" /\ text near = lit "5"
    /\ distance far = Float32 (f32 1 10000000000)
    /\ distance near = Float32 (S754_zero false)
    /\ float_lt (distance near) (distance far) = true
    /\ float_eq (relevance_score far) (relevance_score near) = true.
Proof.
  do 2 eexists. split; [vm_compute; reflexivity|].
  repeat split; vm_compute; reflexivity.
Qed.

(** ** Initialisation *)

Section Initialisation.

Variables Model Index : Type.
Variable load_model : outcome Model.
Variable fs : files Index.

(** Open the monadic steps of [initialize_system]. *)
Ltac unfold_init :=
  unfold initialize_system, try_catch, mbind, call, ret, set_model,
    set_index, set_metadata, set_chunks, modify.

(** X16.  Initialising again changes nothing: a second call on the
    globals left by a first call returns the same value and leaves the
    same globals. *)
Theorem initialize_system_idempotent (g : globals Model Index) :
  initialize_system load_model fs (fst (initialize_system load_model fs g))
  = initialize_system load_model fs g.
Proof.
  unfold_init.
  destruct load_model as [m|e]; [|reflexivity].
  destruct (index_file fs) as [[ix|e]|]; try reflexivity.
  destruct (metadata_file fs) as [[md|e1]|], (chunks_file fs) as [[cs|e2]|];
    reflexivity.
Qed.

(** X17.  The initialisation reports success exactly when the model
    loads, the index file is there and loads, and neither the metadata
    file nor the chunk store raises when read (each may be absent); the
    globals then hold the model, the index and, for each of the two
    files that is present, its content, the former list otherwise. *)
Theorem initialize_system_success (g : globals Model Index) :
  (snd (initialize_system load_model fs g) = Ok true
   <-> exists m ix,
       load_model = Ok m
       /\ index_file fs = Some (Ok ix)
       /\ (forall e, metadata_file fs <> Some (Raise e))
       /\ (forall e, chunks_file fs <> Some (Raise e)))
  /\ (forall m ix,
        load_model = Ok m ->
        index_file fs = Some (Ok ix) ->
        snd (initialize_system load_model fs g) = Ok true ->
        fst (initialize_system load_model fs g)
        = {| model := Some m;
             index := Some ix;
             metadata := match metadata_file fs with
                         | Some (Ok md) => md
                         | _ => metadata g
                         end;
             chunks := match chunks_file fs with
                       | Some (Ok cs) => cs
                       | _ => chunks g
                       end |}).
Proof.
  split.
  - unfold_init. split.
    + intros H. destruct load_model as [m|e]; [|discriminate H].
      destruct (index_file fs) as [[ix|e]|]; try discriminate H.
      exists m, ix. repeat split; auto.
      * intros e He. rewrite He in H. discriminate H.
      * intros e He. rewrite He in H.
        destruct (metadata_file fs) as [[md|e1]|]; discriminate H.
    + intros (m & ix & -> & -> & Hmd & Hcs).
      destruct (metadata_file fs) as [[md|e1]|];
        try (now destruct (Hmd e1));
        destruct (chunks_file fs) as [[cs|e2]|];
        try reflexivity; now destruct (Hcs e2).
  - intros m ix Hm Hi. unfold_init. rewrite Hm, Hi.
    destruct (metadata_file fs) as [[md|e1]|], (chunks_file fs) as [[cs|e2]|];
      simpl; intros H; try discriminate H; reflexivity.
Qed.

End Initialisation.

Lemma initialize_system_success_witness :
  snd (initialize_system (Ok tt) chunk_store_missing initial) = Ok true.
Proof.
  apply (proj1 (initialize_system_success unit unit (Ok tt)
                  chunk_store_missing initial)).
  exists tt, tt. repeat split; discriminate.
Defined.

End SearchMore.

(* ================================================================== *)
(** * The scripts: loading, saving, indexing *)
(* ================================================================== *)

Module ScriptProofs.
Import Py PyFacts Preprocess Files PreprocessIO EmbedStore Inputs Notions.
Import ChunkerProofs PipelineProofs.

(** ** The disk *)

Lemma str_eqb_refl (p : str) : str_eqb p p = true.
Proof. unfold str_eqb. now destruct (list_eq_dec N.eq_dec p p). Qed.

Lemma str_eqb_neq (p q : str) : p <> q -> str_eqb p q = false.
Proof.
  intros H. unfold str_eqb. now destruct (list_eq_dec N.eq_dec p q).
Qed.

Lemma str_eqb_eq (p q : str) : str_eqb p q = true -> p = q.
Proof.
  unfold str_eqb. now destruct (list_eq_dec N.eq_dec p q).
Qed.

Section DiskFacts.

Variable Index : Type.
Variable writable : str -> bool.

Lemma lookup_filter_other (p q : str) (d : disk Index) :
  p <> q ->
  lookup p (filter (fun pb => negb (str_eqb (fst pb) q)) d) = lookup p d.
Proof.
  intros Hpq. induction d as [|[p' b] d IH]; [reflexivity|].
  simpl. destruct (str_eqb p' q) eqn:E; simpl.
  - apply str_eqb_eq in E. subst p'.
    rewrite IH. now rewrite str_eqb_neq by congruence.
  - now rewrite IH.
Qed.

(** A written file is read back, and the other files are as before. *)
Lemma write_file_effect (path : str) (b : blob Index) (d d' : disk Index) :
  write_file writable path b d = (d', Done tt) ->
  lookup path d' = Some b
  /\ forall p, p <> path -> lookup p d' = lookup p d.
Proof.
  unfold write_file, stored. destruct (writable path); intros H; inversion H.
  split.
  - simpl. now rewrite str_eqb_refl.
  - intros p Hp. simpl. rewrite str_eqb_neq by congruence.
    now apply lookup_filter_other.
Qed.

Lemma write_file_fails (path : str) (b : blob Index) (d d' : disk Index)
  (e : error) :
  write_file writable path b d = (d', Fail e) -> d' = d /\ e = OSError.
Proof.
  unfold write_file. destruct (writable path); intros H; inversion H.
  now split.
Qed.

Lemma stored_lookup (path : str) (b : blob Index) (d : disk Index) :
  lookup path (stored path b d) = Some b
  /\ forall p, p <> path -> lookup p (stored path b d) = lookup p d.
Proof.
  unfold stored. split.
  - simpl. now rewrite str_eqb_refl.
  - intros p Hp. simpl. rewrite str_eqb_neq by congruence.
    now apply lookup_filter_other.
Qed.

(** The three ways a JSON dump ends. *)
Lemma write_json_cases (path : str) (v : pyval) (d : disk Index) :
  (writable path = false /\ write_json writable path v d = (d, Fail OSError))
  \/ (writable path = true /\ encodable v = false
      /\ write_json writable path v d
         = (stored path Truncated d, Fail UnicodeEncodeError))
  \/ (writable path = true /\ encodable v = true
      /\ write_json writable path v d = (stored path (JsonDoc v) d, Done tt)).
Proof.
  unfold write_json. destruct (writable path); [|now left].
  right. destruct (encodable v); [right|left]; now repeat split.
Qed.

End DiskFacts.

(** ** Lengths of string lists *)

Lemma sum_len_strings (l : list str) :
  forall total, exists n, sum_len (map PStr l) total = Done n.
Proof.
  induction l as [|s l IH]; intros total; simpl; [now eexists|]. apply IH.
Qed.

Lemma average_of_strings (l : list str) :
  (l = [] /\ average_length (PList (map PStr l)) = Fail ZeroDivisionError)
  \/ (l <> [] /\ exists q, average_length (PList (map PStr l)) = Done q).
Proof.
  unfold average_length. simpl iterate.
  destruct (sum_len_strings l 0) as [n ->]. simpl py_len.
  destruct l as [|s l]; [now left|right].
  split; [discriminate|]. unfold len. simpl length.
  destruct (Z.eqb_spec (Z.of_nat (S (length (map PStr l)))) 0) as [H|_];
    [lia|now eexists].
Qed.

(** ** [load_json_files] *)

(** The entries of one source: those of a file that holds a list. *)
Lemma load_json_files_fold (sources : list (res pyval)) :
  forall acc,
    fold_left
      (fun all_data source =>
         match source with
         | Done (PList data) => all_data ++ data
         | _ => all_data
         end) sources acc
    = acc ++ concat (map listed sources).
Proof.
  induction sources as [|source sources IH]; intros acc; simpl.
  - now rewrite app_nil_r.
  - rewrite IH. destruct source as [[]|]; simpl;
      try reflexivity. now rewrite app_assoc.
Qed.

(** X18.  The loaded records are the entries of the files that parse to
    a list, in the order of the files and, within a file, of the list;
    a file that cannot be read or parsed, or holds anything but a list,
    adds nothing and does not stop the loading. *)
Theorem load_json_files_concat (sources : list (res pyval)) :
  load_json_files sources = concat (map listed sources).
Proof.
  unfold load_json_files. now rewrite load_json_files_fold.
Qed.

(** ** [save_chunks] and the script *)

Section Script.

Variable Index : Type.
Variable writable : str -> bool.

Lemma save_chunks_cases (chunks : list str) (metadata : list chunk_meta)
  (d : disk Index) :
  match save_chunks writable chunks metadata d with
  | (d', Done _) =>
      chunks <> []
      /\ encodable (store_doc chunks metadata) = true
      /\ lookup chunks_path d' = Some (JsonDoc (store_doc chunks metadata))
      /\ (forall p, p <> chunks_path -> lookup p d' = lookup p d)
  | (d', Fail e) =>
      (e = OSError /\ d' = d)
      \/ (e = UnicodeEncodeError
          /\ encodable (store_doc chunks metadata) = false
          /\ lookup chunks_path d' = Some Truncated
          /\ (forall p, p <> chunks_path -> lookup p d' = lookup p d))
      \/ (e = ZeroDivisionError /\ chunks = []
          /\ encodable (store_doc chunks metadata) = true
          /\ lookup chunks_path d'
             = Some (JsonDoc (store_doc chunks metadata)))
  end.
Proof.
  unfold save_chunks, io_bind, makedirs, io_lift, io_ret.
  destruct (writable (lit "vectorstore")); [|now left].
  destruct (write_json_cases Index writable chunks_path
              (store_doc chunks metadata) d)
    as [[_ ->]|[(_ & He & ->)|(_ & He & ->)]].
  - now left.
  - right. left. destruct (stored_lookup Index chunks_path Truncated d).
    now repeat split.
  - destruct (stored_lookup Index chunks_path
                (JsonDoc (store_doc chunks metadata)) d) as [Hl Ho].
    destruct (average_of_strings chunks) as [[Hc ->]|[Hc [q ->]]].
    + right. right. now repeat split.
    + now repeat split.
Qed.

(** X19.  On a writable disk [save_chunks] writes the store, with
    [total_chunks] the number of chunks, when the text of the store can
    be encoded, and then returns when there is a chunk; given no chunk
    it writes the store all the same and then raises ZeroDivisionError.
    When a string of the store has a surrogate it raises
    UnicodeEncodeError and leaves a truncated store file. *)
Theorem save_chunks_empty_list (chunks : list str)
  (metadata : list chunk_meta) (d : disk Index) :
  writable (lit "vectorstore") = true ->
  writable chunks_path = true ->
  (encodable (store_doc chunks metadata) = true ->
   lookup chunks_path (fst (save_chunks writable chunks metadata d))
   = Some (JsonDoc (PDict [ (lit "chunks", PList (map PStr chunks));
                            (lit "metadata", PList (map meta_dict metadata));
                            (lit "total_chunks", PInt (len chunks)) ]))
   /\ (chunks = [] ->
       snd (save_chunks writable chunks metadata d) = Fail ZeroDivisionError)
   /\ (chunks <> [] ->
       snd (save_chunks writable chunks metadata d) = Done tt))
  /\ (encodable (store_doc chunks metadata) = false ->
      snd (save_chunks writable chunks metadata d) = Fail UnicodeEncodeError
      /\ lookup chunks_path (fst (save_chunks writable chunks metadata d))
         = Some Truncated).
Proof.
  intros Hdir Hfile. pose proof (save_chunks_cases chunks metadata d) as H.
  assert (Hok : forall d', save_chunks writable chunks metadata d
                           <> (d', Fail OSError)).
  { intros d'. unfold save_chunks, io_bind, makedirs, write_json, io_lift,
      io_ret. rewrite Hdir, Hfile.
    destruct (encodable (store_doc chunks metadata)); [|discriminate].
    destruct (average_of_strings chunks) as [[_ ->]|[_ [q ->]]];
      discriminate. }
  destruct (save_chunks writable chunks metadata d) as [d' [[]|e]].
  - destruct H as (Hne & He & Hl & _). cbn [fst snd]. split.
    + intros _. repeat split; auto. intros Hc. contradiction.
    + intros Hn. congruence.
  - destruct H as [[-> _]|[(-> & He & Hl & _)|(-> & Hc & He & Hl)]];
      [now destruct (Hok d')| |]; cbn [fst snd].
    + split; [intros Hn; congruence|]. intros _. now split.
    + split; [|intros Hn; congruence].
      intros _. repeat split; auto. intros Hne. contradiction.
Qed.

Lemma main_cases (isalnum : char -> bool) (fuel : nat)
  (sources : list (res pyval)) (d d' : disk Index) (e : ending) :
  main writable isalnum fuel sources d = Some (d', e) ->
  match e with
  | Exited code => code = 1 /\ d' = d
  | Crashed err =>
      (err = OSError /\ d' = d)
      \/ (err = UnicodeEncodeError
          /\ lookup chunks_path d' = Some Truncated
          /\ (forall p, p <> chunks_path -> lookup p d' = lookup p d)
          /\ exists chunks metadata,
              clean_and_chunk isalnum fuel (load_json_files sources) 600 150
              = Some (chunks, metadata)
              /\ encodable (store_doc chunks metadata) = false)
  | Finished =>
      exists chunks metadata,
        clean_and_chunk isalnum fuel (load_json_files sources) 600 150
        = Some (chunks, metadata)
        /\ chunks <> []
        /\ length chunks = length metadata
        /\ lookup chunks_path d'
           = Some (JsonDoc (store_doc chunks metadata))
        /\ (forall p, p <> chunks_path -> lookup p d' = lookup p d)
  end.
Proof.
  unfold main. intros H.
  destruct (QueryBot.is_empty (load_json_files sources));
    [now inversion H|].
  destruct (clean_and_chunk isalnum fuel (load_json_files sources) 600 150)
    as [[chunks metadata]|] eqn:Hb; [|discriminate H].
  destruct chunks as [|c chunks]; [now inversion H|]. simpl in H.
  pose proof (save_chunks_cases (c :: chunks) metadata d) as Hs.
  destruct (save_chunks writable (c :: chunks) metadata d) as [d1 [[]|err]];
    inversion H; subst.
  - destruct Hs as (Hne & _ & Hl & Ho). exists (c :: chunks), metadata.
    repeat split; auto.
    assert (Hal : aligned_with isalnum fuel (load_json_files sources) 600 150
                    (c :: chunks, metadata)).
    { apply (loop_aligned isalnum fuel (load_json_files sources) 600 150
               (load_json_files sources) 0 ([], []) _); auto. constructor. }
    apply (Forall2_length Hal).
  - destruct Hs as [[-> ->]|[(-> & He & Hl & Ho)|(_ & Hc & _)]];
      [now left| |discriminate Hc].
    right. repeat split; auto. now exists (c :: chunks), metadata.
Qed.


End Script.

Lemma save_chunks_empty_list_witness :
  snd (save_chunks (Index := unit) (fun _ => true) [] [] [])
  = Fail ZeroDivisionError
  /\ snd (save_chunks (Index := unit) (fun _ => true) [short_content]
            surrogate_metadata [])
     = Fail UnicodeEncodeError.
Proof.
  split.
  - apply (proj1 (save_chunks_empty_list unit (fun _ => true) [] [] []
                    eq_refl eq_refl)); reflexivity.
  - apply (proj2 (save_chunks_empty_list unit (fun _ => true)
                    [short_content] surrogate_metadata [] eq_refl eq_refl)).
    reflexivity.
Defined.


End ScriptProofs.

(* ================================================================== *)
(** * Building the index, and loading what was built *)
(* ================================================================== *)

Module IndexProofs.
Import Py PyFacts Preprocess Files PreprocessIO EmbedStore Inputs Notions.
Import ScriptProofs.

Lemma paths_differ :
  index_path <> chunks_path /\ metadata_path <> chunks_path
  /\ index_path <> metadata_path.
Proof. repeat split; intros H; vm_compute in H; discriminate H. Qed.

(** The average length of an empty value is a division by zero. *)
Lemma average_of_nothing (v : pyval) :
  py_len v = Done 0 -> average_length v = Fail ZeroDivisionError.
Proof.
  unfold average_length. intros H.
  destruct v as [| | | |s|l|items]; try discriminate H; simpl in H;
    inversion H as [Hlen]; unfold len in Hlen.
  - destruct s; [reflexivity|discriminate Hlen].
  - destruct l; [reflexivity|discriminate Hlen].
  - destruct items; [reflexivity|discriminate Hlen].
Qed.

Section Embed.

Variables Model Index Emb : Type.
Variable load_model : outcome Model.
Variable encode_chunks : Model -> pyval -> outcome Emb.
Variable build_index : Emb -> outcome Index.
Variable writable : str -> bool.

Local Notation "'create'" :=
  (create_enhanced_index load_model encode_chunks build_index writable)
  (only parsing).

(** Open the monadic steps of [create_enhanced_index]. *)
Ltac unfold_create :=
  unfold create_enhanced_index, io_try, io_bind, exists_file, read_json,
    io_lift, io_ret.

(** What a call that returns [True] has done. *)
Lemma create_true (d d' : disk Index) :
  create d = (d', Done true) ->
  exists doc chunks metadata m emb ix,
    lookup chunks_path d = Some (JsonDoc doc)
    /\ subscript doc (lit "chunks") = Done chunks
    /\ subscript doc (lit "metadata") = Done metadata
    /\ load_model = Ok m
    /\ encode_chunks m chunks = Ok emb
    /\ build_index emb = Ok ix
    /\ lookup index_path d' = Some (FaissIndex ix)
    /\ lookup metadata_path d' = Some (Pickled metadata)
    /\ (forall p, p <> index_path -> p <> metadata_path ->
                  lookup p d' = lookup p d).
Proof.
  unfold_create. intros H.
  destruct (lookup chunks_path d) as [[doc|v|ix0|]|] eqn:Hl;
    simpl in H; rewrite ?Hl in H; simpl in H; try discriminate H.
  destruct (subscript doc (lit "chunks")) as [chunks|e] eqn:Hc;
    simpl in H; [|discriminate H].
  destruct (subscript doc (lit "metadata")) as [metadata|e] eqn:Hm;
    simpl in H; [|discriminate H].
  destruct (py_len chunks) as [n|e] eqn:Hn;
    simpl in H; rewrite ?Hn in H; simpl in H; [|discriminate H].
  destruct (py_len metadata) as [n'|e]; simpl in H; [|discriminate H].
  destruct (average_length chunks) as [q|e];
    simpl in H; rewrite ?Hn in H; simpl in H; [|discriminate H].
  destruct (n =? 0); simpl in H; [discriminate H|].
  destruct load_model as [m|e]; simpl in H; [|discriminate H].
  destruct (encode_chunks m chunks) as [emb|e] eqn:He;
    simpl in H; [|discriminate H].
  destruct (build_index emb) as [ix|e] eqn:Hb;
    simpl in H; [|discriminate H].
  destruct (write_file writable index_path (FaissIndex ix) d)
    as [d1 [[]|e]] eqn:Hw1; simpl in H; [|discriminate H].
  destruct (write_file writable metadata_path (Pickled metadata) d1)
    as [d2 [[]|e]] eqn:Hw2; simpl in H; [|discriminate H].
  inversion H; subst d2.
  apply write_file_effect in Hw1, Hw2.
  destruct Hw1 as [Hi1 Ho1], Hw2 as [Hi2 Ho2].
  destruct paths_differ as (_ & _ & Hne).
  exists doc, chunks, metadata, m, emb, ix. repeat split; auto.
  - now rewrite Ho2, Hi1.
  - intros p Hp1 Hp2. now rewrite Ho2, Ho1.
Qed.

(** X21.  [create_enhanced_index] does not raise.  It returns [False]
    and leaves the disk as it was when the chunk store is absent and
    when the chunk list of the store is empty: in the latter case the
    average printed on line 31 raises ZeroDivisionError, before the test
    of line 33 is reached. *)
Theorem create_enhanced_index_refuses (d : disk Index) :
  (exists b, snd (create d) = Done b)
  /\ (lookup chunks_path d = None -> create d = (d, Done false))
  /\ (forall doc chunks,
        lookup chunks_path d = Some (JsonDoc doc) ->
        subscript doc (lit "chunks") = Done chunks ->
        py_len chunks = Done 0 ->
        create d = (d, Done false)
        /\ average_length chunks = Fail ZeroDivisionError).
Proof.
  split; [|split].
  - unfold create_enhanced_index, io_try.
    match goal with
    | |- context [match ?body d with _ => _ end] =>
        destruct (body d) as [d' [b|e]]
    end; simpl; eauto.
  - intros H. unfold_create. now rewrite H.
  - intros doc chunks Hl Hc Hn.
    pose proof (average_of_nothing chunks Hn) as He.
    split; [|exact He].
    unfold_create. rewrite Hl. simpl. rewrite Hl, Hc. simpl.
    destruct (subscript doc (lit "metadata")) as [metadata|e'];
      [|reflexivity].
    simpl. rewrite Hn. simpl.
    destruct (py_len metadata) as [n'|e']; [|reflexivity].
    simpl. now rewrite He.
Qed.

(** X22.  When [create_enhanced_index] returns [True], the chunk store
    was read, the index on disk is the one built from the embeddings of
    the store's chunk list, the metadata file holds the store's metadata
    list, and every other file is as before. *)
Theorem create_enhanced_index_writes (d : disk Index) :
  snd (create d) = Done true ->
  exists doc chunks metadata m emb ix,
    lookup chunks_path d = Some (JsonDoc doc)
    /\ subscript doc (lit "chunks") = Done chunks
    /\ subscript doc (lit "metadata") = Done metadata
    /\ load_model = Ok m
    /\ encode_chunks m chunks = Ok emb
    /\ build_index emb = Ok ix
    /\ lookup index_path (fst (create d)) = Some (FaissIndex ix)
    /\ lookup metadata_path (fst (create d)) = Some (Pickled metadata)
    /\ (forall p, p <> index_path -> p <> metadata_path ->
                  lookup p (fst (create d)) = lookup p d).
Proof.
  intros H. destruct (create d) as [d' r] eqn:E. simpl in H. subst r.
  simpl. now apply create_true.
Qed.

End Embed.

(** A store without chunks: the call returns [False], the disk is as it
    was, and the average of line 31 is a division by zero. *)
Lemma create_enhanced_index_refuses_witness :
  create_enhanced_index (Ok tt) any_encoder any_builder all_writable
    empty_store
  = (empty_store, Done false)
  /\ average_length (PList []) = Fail ZeroDivisionError.
Proof.
  apply (proj2 (proj2 (create_enhanced_index_refuses unit unit unit (Ok tt)
                         any_encoder any_builder all_writable empty_store))
           (store_doc [] []) (PList [])); reflexivity.
Defined.

Lemma create_enhanced_index_writes_witness :
  exists doc chunks metadata m emb ix,
    lookup chunks_path built_disk = Some (JsonDoc doc)
    /\ subscript doc (lit "chunks") = Done chunks
    /\ subscript doc (lit "metadata") = Done metadata
    /\ Ok tt = Ok m
    /\ any_encoder m chunks = Ok emb
    /\ any_builder emb = Ok ix
    /\ lookup index_path
         (fst (create_enhanced_index (Ok tt) any_encoder any_builder
                 all_writable built_disk))
       = Some (FaissIndex ix)
    /\ lookup metadata_path
         (fst (create_enhanced_index (Ok tt) any_encoder any_builder
                 all_writable built_disk))
       = Some (Pickled metadata)
    /\ (forall p, p <> index_path -> p <> metadata_path ->
                  lookup p
                    (fst (create_enhanced_index (Ok tt) any_encoder
                            any_builder all_writable built_disk))
                  = lookup p built_disk).
Proof.
  apply (create_enhanced_index_writes unit unit unit (Ok tt) any_encoder
           any_builder all_writable built_disk).
  vm_compute. reflexivity.
Defined.

(** ** From the build to the loaded system *)

Lemma meta_dict_inj (a b : chunk_meta) : meta_dict a = meta_dict b -> a = b.
Proof.
  destruct a, b. unfold meta_dict. simpl. intros H. inversion H.
  f_equal. now apply Nat2Z.inj.
Qed.

Lemma map_meta_dict_inj (l1 l2 : list chunk_meta) :
  map meta_dict l1 = map meta_dict l2 -> l1 = l2.
Proof.
  revert l2. induction l1 as [|a l1 IH]; intros [|b l2] H;
    try discriminate H; [reflexivity|].
  cbn [map] in H.
  assert (Hh : meta_dict a = meta_dict b) by congruence.
  assert (Ht : map meta_dict l1 = map meta_dict l2) by congruence.
  f_equal; [now apply meta_dict_inj|now apply IH].
Qed.

Lemma map_PStr_inj (l1 l2 : list str) : map PStr l1 = map PStr l2 -> l1 = l2.
Proof.
  revert l2. induction l1 as [|a l1 IH]; intros [|b l2] H;
    try discriminate H; [reflexivity|].
  simpl in H. inversion H. f_equal. now apply IH.
Qed.

Section BuildThenLoad.

Variables Model Index Emb : Type.
Variable load_model : outcome Model.
Variable encode_chunks : Model -> pyval -> outcome Emb.
Variable build_index : Emb -> outcome Index.
Variable writable : str -> bool.

(** X23.  What the build writes is what the server loads.  After the
    preprocessing script has finished and [create_enhanced_index] has
    returned [True], [initialize_system] from the initial globals, on
    the files of that disk, returns [True] with exactly the chunks and
    the metadata of the build: at least one chunk, and as many metadata
    entries as chunks. *)
Theorem build_then_load (isalnum : char -> bool) (fuel : nat)
  (sources : list (res pyval)) (d0 d1 d2 : disk Index)
  (fs : QueryBot.files Index) :
  main writable isalnum fuel sources d0 = Some (d1, Finished) ->
  create_enhanced_index load_model encode_chunks build_index writable d1
  = (d2, Done true) ->
  reflects d2 fs ->
  exists chunks metadata m ix,
    clean_and_chunk isalnum fuel (load_json_files sources) 600 150
    = Some (chunks, metadata)
    /\ QueryBot.initialize_system load_model fs QueryBot.initial
       = ({| QueryBot.model := Some m;
             QueryBot.index := Some ix;
             QueryBot.metadata := metadata;
             QueryBot.chunks := chunks |}, Ok true)
    /\ length chunks = length metadata
    /\ chunks <> [].
Proof.
  intros Hmain Hcreate (Hidx & Hmd & Hcs).
  apply main_cases in Hmain.
  destruct Hmain as (chunks & metadata & Hb & Hne & Hlen & Hl1 & _).
  apply create_true in Hcreate.
  destruct Hcreate as (doc & chunks' & metadata' & m & emb & ix & Hl & Hc
                       & Hm & Hload & _ & _ & Hi2 & Hm2 & Ho2).
  rewrite Hl1 in Hl. inversion Hl; subst doc.
  change (subscript (store_doc chunks metadata) (lit "metadata"))
    with (@Done pyval (PList (map meta_dict metadata))) in Hm.
  inversion Hm; subst metadata'.
  destruct paths_differ as (Hp1 & Hp2 & _).
  rewrite Hi2 in Hidx. rewrite Hm2 in Hmd.
  rewrite (Ho2 chunks_path) in Hcs by congruence. rewrite Hl1 in Hcs.
  change (get (store_doc chunks metadata) (lit "chunks") (PList []))
    with (@Ok pyval (PList (map PStr chunks))) in Hcs.
  destruct Hmd as (md & Hmd & Hmf). apply map_meta_dict_inj in Hmd.
  destruct Hcs as (cs & Hcs & Hcf). apply map_PStr_inj in Hcs.
  subst md cs.
  exists chunks, metadata, m, ix. repeat split; auto.
  unfold QueryBot.initialize_system, QueryBot.try_catch, QueryBot.mbind,
    QueryBot.call, QueryBot.ret, QueryBot.set_model, QueryBot.set_index,
    QueryBot.set_metadata, QueryBot.set_chunks, QueryBot.modify.
  rewrite Hload, Hidx, Hmf, Hcf. reflexivity.
Qed.

End BuildThenLoad.

Lemma build_then_load_witness :
  exists chunks metadata m ix,
    clean_and_chunk ascii_isalnum 3
      (load_json_files [Done (PList sample_data)]) 600 150
    = Some (chunks, metadata)
    /\ QueryBot.initialize_system (Ok tt) indexed_files QueryBot.initial
       = ({| QueryBot.model := Some m;
             QueryBot.index := Some ix;
             QueryBot.metadata := metadata;
             QueryBot.chunks := chunks |}, Ok true)
    /\ length chunks = length metadata
    /\ chunks <> [].
Proof.
  apply (build_then_load unit unit unit (Ok tt) any_encoder any_builder
           all_writable ascii_isalnum 3 [Done (PList sample_data)]
           [] built_disk indexed_disk indexed_files).
  - vm_compute. reflexivity.
  - vm_compute. reflexivity.
  - split; [reflexivity|]. split.
    + exists sample_metadata. split; reflexivity.
    + exists sample_chunks. split; reflexivity.
Defined.

End IndexProofs.

(* ================================================================== *)
(** * The answer *)
(* ================================================================== *)

Module AnswerProofs.
Import Py PyFacts QueryBot Answer Inputs Notions RankingProofs SearchProofs.

Section Generator.

Variables Model Index Vec : Type.
Variable load_model : outcome Model.
Variable encode : Model -> list str -> outcome Vec.
Variable index_search : Index -> Vec -> Z -> outcome (list (spec_float * Z)).
Variable lower : str -> str.
Variable fs : files Index.
Variable chat : str -> str -> outcome str.
Variable remove_sources : str -> str.

(** The guarded call of [initialize_system]. *)
Lemma maybe_initialize (c : bool) (g : globals Model Index) :
  (if c then mbind (initialize_system load_model fs) (fun _ => ret tt)
   else ret tt) g
  = ((if c then fst (initialize_system load_model fs g) else g), Ok tt).
Proof.
  destruct c; [|reflexivity]. unfold mbind, ret.
  destruct (initialize_system_returns Model Index load_model fs g) as [b Hb].
  destruct (initialize_system load_model fs g) as [g' o].
  simpl in Hb. now subst o.
Qed.

(** With no model after the initialisation, initialising again changes
    nothing. *)
Lemma ready_without_model (g : globals Model Index) :
  (if is_none (model (ready load_model fs g))
   then fst (initialize_system load_model fs (ready load_model fs g))
   else ready load_model fs g)
  = ready load_model fs g.
Proof.
  destruct (is_none (model (ready load_model fs g))) eqn:E; [|reflexivity].
  assert (Hload : exists e, load_model = Raise e).
  { unfold ready in E.
    destruct (is_none (model g) || is_none (index g)) eqn:Hc.
    - revert E. unfold initialize_system, try_catch, mbind, call, ret,
        set_model, set_index, set_metadata, set_chunks, modify.
      destruct load_model as [m|e]; [|now eexists].
      destruct (index_file fs) as [[ix|e]|]; simpl; try discriminate.
      destruct (metadata_file fs) as [[md|e1]|],
        (chunks_file fs) as [[cs|e2]|]; simpl; discriminate.
    - apply orb_false_elim in Hc. destruct Hc as [Hc _]. congruence. }
  destruct Hload as [e He].
  unfold initialize_system, try_catch, mbind, call, ret. now rewrite He.
Qed.

Lemma search_returns (query : str) (k : Z) (g : globals Model Index) :
  exists results,
    enhanced_semantic_search load_model encode index_search lower fs
      query k g
    = (ready load_model fs g, Ok results).
Proof.
  rewrite search_unfold. cbv zeta.
  destruct (is_empty _ || is_empty _); [now eexists|].
  destruct (snd (retrieve encode index_search lower query k _));
    now eexists.
Qed.

Lemma generate_unfold (query : str) (g : globals Model Index) :
  exists results,
    enhanced_semantic_search load_model encode index_search lower fs
      query 5
      (if is_none (model g)
       then fst (initialize_system load_model fs g) else g)
    = (ready load_model fs
         (if is_none (model g)
          then fst (initialize_system load_model fs g) else g),
       Ok results)
    /\ generate_response_without_sources load_model encode index_search
         lower fs chat remove_sources query g
       = (ready load_model fs
            (if is_none (model g)
             then fst (initialize_system load_model fs g) else g),
          Ok (answer_for chat remove_sources query results)).
Proof.
  set (g2 := if is_none (model g)
             then fst (initialize_system load_model fs g) else g).
  destruct (search_returns query 5 g2) as [results Hs].
  exists results. split; [exact Hs|].
  unfold generate_response_without_sources, try_catch.
  unfold mbind at 1. unfold read at 1.
  unfold mbind at 1. rewrite maybe_initialize. fold g2.
  unfold mbind at 1. rewrite Hs. unfold answer_for.
  destruct (is_empty results); [reflexivity|].
  unfold mbind, call, ret.
  destruct (chat system_message
              (create_conversational_prompt query results));
    reflexivity.
Qed.

(** X24.  [query_knowledge_base] returns a text for every query and
    every behaviour of its collaborators.  With no search result (for
    [k = 5], on the globals once initialised) the answer is the fixed
    not-found message and the language model is not consulted; when the
    call of the model raises it is the generation fallback; otherwise it
    is the content of the model, trimmed, cleaned of sources and trimmed
    again.  The fallback text of [query_knowledge_base] itself is never
    the result of its handler. *)
Theorem query_knowledge_base_answers (query : str)
  (g : globals Model Index) :
  exists results,
    snd (enhanced_semantic_search load_model encode index_search lower fs
           query 5 (ready load_model fs g)) = Ok results
    /\ snd (query_knowledge_base load_model encode index_search lower fs
              chat remove_sources query g)
       = Ok (if is_empty results then not_found_message
             else
               match chat system_message
                       (create_conversational_prompt query results)
               with
               | Ok content => strip (remove_sources (strip content))
               | Raise _ => generation_fallback
               end).
Proof.
  destruct (generate_unfold query (ready load_model fs g))
    as (results & Hs & Hg).
  rewrite ready_without_model in Hs, Hg.
  exists results. split; [now rewrite Hs|].
  unfold query_knowledge_base, try_catch.
  unfold mbind at 1. unfold read at 1.
  unfold mbind at 1. rewrite maybe_initialize.
  change (if is_none (model g) || is_none (index g)
          then fst (initialize_system load_model fs g) else g)
    with (ready load_model fs g).
  unfold mbind at 1. rewrite Hg. reflexivity.
Qed.

(** X25.  [check_and_initialize] of [app.py] returns [False] only when
    the directory is missing and importing the module raises; a call of
    [initialize_system] that reports failure still counts as success. *)
Theorem check_and_initialize_result (vectorstore_exists : bool)
  (import_query_bot : outcome unit) (g : globals Model Index) :
  snd (check_and_initialize load_model fs vectorstore_exists
         import_query_bot g)
  = Ok (vectorstore_exists
        || match import_query_bot with
           | Ok _ => true
           | Raise _ => false
           end).
Proof.
  unfold check_and_initialize.
  destruct vectorstore_exists; [reflexivity|].
  change (negb false) with true. cbv iota.
  unfold try_catch, mbind, call, ret. cbv beta.
  destruct import_query_bot as [[]|e]; [|reflexivity].
  destruct (initialize_system_returns Model Index load_model fs g)
    as [b Hb].
  destruct (initialize_system load_model fs g) as [g' o].
  simpl in Hb. subst o. reflexivity.
Qed.

End Generator.

End AnswerProofs.
